(** * Tensor: typed access, lazy allocation, aliasing, slicing and copy

    A shallow embedding of [paddle/framework/tensor_impl.h].  Every member
    function of the header is a definition below, in the order of the
    header.  Member functions declared [const] are pure functions of the
    tensor; the others run in a small state-and-exception monad whose state
    is the receiver ([*this]) and the outside world (the allocator's log and
    the calls made to [memory::Copy]).  An exception keeps the state reached
    when it was thrown, as in C++. *)

From Stdlib Require Import ZArith List Bool Lia.
Import ListNotations.
Local Open Scope Z_scope.

(** ** Machine integers

    [size_t] and [uintptr_t] are 64-bit unsigned; [int64_t] is 64-bit two's
    complement.  Values are kept in [Z] and every operation of the header
    wraps explicitly. *)
Module U64.

Definition modulus : Z := 2 ^ 64.

(** Conversion to [size_t]. *)
Definition wrap (x : Z) : Z := x mod modulus.

(** [x + y] and [x * y] computed in [size_t]. *)
Definition add (x y : Z) : Z := wrap (x + y).
Definition mul (x y : Z) : Z := wrap (x * y).

(** Conversion to [int64_t] (the same 64 bits read as two's complement). *)
Definition to_int64 (x : Z) : Z :=
  let y := wrap x in if y <? 2 ^ 63 then y else y - modulus.

End U64.

(** ** Collaborators declared outside the header *)

(** Modelled from the spec: [platform::Place] (paddle/platform/place.h is not
    part of the sources).  "Place -- tagged union {Host, Device(index)}.
    Equality compares tag and, for Device, index." *)
Inductive Place : Type :=
| CPUPlace
| GPUPlace (device : Z).

Definition Place_eqb (p q : Place) : bool :=
  match p, q with
  | CPUPlace, CPUPlace => true
  | GPUPlace d, GPUPlace e => d =? e
  | _, _ => false
  end.

Definition is_cpu_place (p : Place) : bool :=
  match p with CPUPlace => true | GPUPlace _ => false end.

Definition is_gpu_place (p : Place) : bool :=
  match p with CPUPlace => false | GPUPlace _ => true end.

(** Modelled from the spec: the dimension vector [DDim] (paddle/framework/ddim.h
    is not part of the sources).  "numel(shape) is the product of all extents";
    the dimension type provides "leading-extent read/replace, and a flatten to
    two dims given a split point operation": "the product of the leading
    num_col_dims extents, and the product of the remaining extents". *)
Definition DDim : Type := list Z.

Fixpoint product (d : DDim) : Z :=
  match d with
  | [] => 1
  | x :: r => x * product r
  end.

(** [d[0]] read; [None] when there is no leading extent. *)
Definition leading (d : DDim) : option Z := hd_error d.

(** [d[0] = v]. *)
Definition set_leading (d : DDim) (v : Z) : DDim :=
  match d with
  | [] => []
  | _ :: r => v :: r
  end.

Definition flatten_to_2d (src : DDim) (num_col_dims : Z) : DDim :=
  [ product (firstn (Z.to_nat num_col_dims) src);
    product (skipn (Z.to_nat num_col_dims) src) ].

(** The element type [T] of the templates: a POD type, of which the header
    uses [sizeof(T)] only. *)
Record PodType : Type := Pod { size_of : positive }.

Definition sizeof (T : PodType) : Z := Z.pos (size_of T).

Definition float_t : PodType := Pod 4.
Definition double_t : PodType := Pod 8.

(** Modelled from the spec: [Tensor::Placeholder] (declared in tensor.h, which
    is not part of the sources).  "RawBuffer -- fields: place, size, data".
    A placeholder never changes once built, so a [shared_ptr<Placeholder>] is
    the placeholder's value together with [serial_], the number of the
    allocation that made it, which stands for the identity of the shared
    object. *)
Record Placeholder : Type := {
  serial_ : nat;
  ptr_ : Z;
  place_ : Place;
  size_ : Z
}.

(** Modelled from the spec: the fields of [Tensor] (declared in tensor.h).
    "Tensor -- fields: shape, offset: bytes, buffer: shared reference to
    RawBuffer, nullable"; "a Tensor is created with an empty shape and no
    buffer". *)
Record Tensor : Type := {
  holder_ : option Placeholder;
  dims_ : DDim;
  offset_ : Z
}.

Definition new_Tensor : Tensor :=
  {| holder_ := None; dims_ := []; offset_ := 0 |}.

(** Modelled from the spec: [platform::DeviceContext], "exposing the Place it
    executes on". *)
Record DeviceContext : Type := { GetPlace : Place }.

(** One call [memory::Copy(dst_place, dst, src_place, src, num[, stream])];
    [stream] is the context whose stream orders the copy, [None] for the
    synchronous overload. *)
Record CopyCall : Type := {
  copy_dst_place : Place;
  copy_dst : Z;
  copy_src_place : Place;
  copy_src : Z;
  copy_num : Z;
  copy_stream : option DeviceContext
}.

(** ** Errors and the monad *)

(** The failed checks of the header; each is an [EnforceNotMet] exception
    with its own message. *)
Inductive Error : Type :=
| HolderIsNull            (* "Tensor holds no memory. Call Tensor::mutable_data first." *)
| DimsOutOfBound          (* "Tensor's dims_ is out of bound. ..." *)
| NumelNotPositive        (* "Tensor's numel must be larger than zero ..." *)
| GPUPlaceNotSupported    (* "'GPUPlace' is not supported in CPU only device." *)
| SliceBeginNegative      (* "Slice begin index is less than zero." *)
| SliceEndOutOfBound      (* "Slice end index is out of bound." *)
| SliceBeginNotBelowEnd   (* "Begin index must be less than end index." *)
| CtxNotOnGPU             (* PADDLE_ENFORCE(platform::is_gpu_place(ctx_place)) *)
| CtxPlaceMismatch        (* PADDLE_ENFORCE_EQ(.._gpu_place, ctx_gpu_place) *)
| InvalidIndex            (* an index outside the dimension vector *)
| NullDereference.        (* [holder_->] on a null holder *)

Inductive Res (A : Type) : Type :=
| Ok (a : A)
| Throw (e : Error).
Arguments Ok {A} a.
Arguments Throw {A} e.

Definition bindR {A B : Type} (r : Res A) (k : A -> Res B) : Res B :=
  match r with
  | Ok a => k a
  | Throw e => Throw e
  end.

Definition enforceR (b : bool) (e : Error) : Res unit :=
  if b then Ok tt else Throw e.

(** The world outside the tensor: the placeholders allocated so far (newest
    first) and the calls made to [memory::Copy] (newest first). *)
Record World : Type := {
  allocated : list Placeholder;
  copies : list CopyCall
}.

Record St : Type := {
  this : Tensor;
  world : World
}.

Definition M (A : Type) : Type := St -> Res A * St.

Definition ret {A : Type} (a : A) : M A := fun s => (Ok a, s).

Definition throw {A : Type} (e : Error) : M A := fun s => (Throw e, s).

Definition bind {A B : Type} (m : M A) (k : A -> M B) : M B :=
  fun s =>
    match m s with
    | (Ok a, s') => k a s'
    | (Throw e, s') => (Throw e, s')
    end.

Declare Scope tensor_scope.
Delimit Scope tensor_scope with tensor.
Notation "x <- m ;; k" := (bind m (fun x => k))
  (at level 100, m at next level, right associativity) : tensor_scope.
Notation "m ;; k" := (bind m (fun _ => k))
  (at level 100, right associativity) : tensor_scope.
Notation "x <-- r ;; k" := (bindR r (fun x => k))
  (at level 100, r at next level, right associativity) : tensor_scope.
Local Open Scope tensor_scope.

Definition get_this : M Tensor := fun s => (Ok (this s), s).

Definition put_this (t : Tensor) : M unit :=
  fun s => (Ok tt, {| this := t; world := world s |}).

(** A call of a [const] member function, or of a member of another object
    that is only read. *)
Definition const_call {A : Type} (r : Res A) : M A := fun s => (r, s).

Definition enforce (b : bool) (e : Error) : M unit := const_call (enforceR b e).

Definition set_holder (h : option Placeholder) : M unit :=
  t <- get_this ;;
  put_this {| holder_ := h; dims_ := dims_ t; offset_ := offset_ t |}.

Definition set_dims (d : DDim) : M unit :=
  t <- get_this ;;
  put_this {| holder_ := holder_ t; dims_ := d; offset_ := offset_ t |}.

Definition set_offset (o : Z) : M unit :=
  t <- get_this ;;
  put_this {| holder_ := holder_ t; dims_ := dims_ t; offset_ := o |}.

(** [holder_->...]: the placeholder behind a holder. *)
Definition deref (h : option Placeholder) : Res Placeholder :=
  match h with
  | Some p => Ok p
  | None => Throw NullDereference
  end.

(** Run a computation on a receiver of its own (a local [Tensor] object) in
    the world [w]; gives the result, the object afterwards and the world. *)
Definition on_object {A : Type} (t : Tensor) (m : M A) (w : World)
  : Res A * Tensor * World :=
  let '(r, s) := m {| this := t; world := w |} in (r, this s, world s).

(** ** The header *)

Section TensorImpl.

(** Whether the build defines [PADDLE_WITH_CUDA]. *)
Variable PADDLE_WITH_CUDA : bool.

(** [memory::Alloc(place, size)], an external collaborator: the address it
    returns for the [n]-th allocation of the run.  The allocator is taken to
    have the memory asked for; releasing a placeholder nobody holds any more
    is not modelled. *)
Variable memory_Alloc : Place -> Z -> nat -> Z.

(** [new PlaceholderImpl<T, P>(place, size)]: the constructor takes [size]
    as a [size_t], allocates, and the new placeholder joins the log. *)
Definition new_Placeholder (place : Place) (size : Z) : M Placeholder :=
  fun s =>
    let n := length (allocated (world s)) in
    let h := {| serial_ := n;
                ptr_ := memory_Alloc place (U64.wrap size) n;
                place_ := place;
                size_ := U64.wrap size |} in
    (Ok h, {| this := this s;
              world := {| allocated := h :: allocated (world s);
                          copies := copies (world s) |} |}).

(** [memory::Copy(...)], an external collaborator: the call is recorded. *)
Definition memory_Copy (dst_place : Place) (dst : Z) (src_place : Place)
    (src : Z) (num : Z) (stream : option DeviceContext) : M unit :=
  fun s =>
    let c := {| copy_dst_place := dst_place; copy_dst := dst;
                copy_src_place := src_place; copy_src := src;
                copy_num := num; copy_stream := stream |} in
    (Ok tt, {| this := this s;
               world := {| allocated := allocated (world s);
                           copies := c :: copies (world s) |} |}).

(** [inline const DDim& Tensor::dims() const { return dims_; }] *)
Definition dims (t : Tensor) : DDim := dims_ t.

(** [inline int64_t Tensor::numel() const { return product(dims_); }]: the
    product of the extents as an [int64_t], so a product that does not fit
    64 bits comes back wrapped. *)
Definition numel (t : Tensor) : Z := U64.to_int64 (product (dims_ t)).

(** [Tensor::check_memory_size<T>() const].  [numel() * sizeof(T) + offset_]
    is computed in [size_t]: [numel()] is converted to [size_t] for the
    product with [sizeof(T)], and wrapping the product absorbs that
    conversion. *)
Definition check_memory_size (T : PodType) (t : Tensor) : Res unit :=
  match holder_ t with
  | None => Throw HolderIsNull
  | Some h =>
      enforceR (size_ h >=? U64.add (U64.mul (numel t) (sizeof T)) (offset_ t))
               DimsOutOfBound
  end.

(** [Tensor::data<T>()], both the [const] and the non-[const] overload: the
    bodies are the same and neither writes a field. *)
Definition data (T : PodType) (t : Tensor) : Res Z :=
  _ <-- check_memory_size T t ;;
  h <-- deref (holder_ t) ;;
  Ok (U64.add (ptr_ h) (offset_ t)).

(** [Tensor::Resize(const DDim& dims)]; the result is [*this]. *)
Definition Resize (d : DDim) : M Tensor :=
  set_dims d ;;
  get_this.

(** [Tensor::mutable_data<T>(platform::Place place)].  [size] is an
    [int64_t]; [size + offset_] is computed in [size_t]. *)
Definition mutable_data (T : PodType) (place : Place) : M Z :=
  t <- get_this ;;
  enforce (numel t >? 0) NumelNotPositive ;;
  let size := U64.to_int64 (U64.mul (numel t) (sizeof T)) in
  (if match holder_ t with
      | None => true
      | Some h => negb (Place_eqb (place_ h) place)
                  || (size_ h <? U64.add size (offset_ t))
      end
   then
     (if is_cpu_place place then
        h <- new_Placeholder place size ;;
        set_holder (Some h)
      else if is_gpu_place place then
        if PADDLE_WITH_CUDA then
          h <- new_Placeholder place size ;;
          set_holder (Some h)
        else throw GPUPlaceNotSupported
      else ret tt) ;;
     set_offset 0
   else ret tt) ;;
  t' <- get_this ;;
  h <- const_call (deref (holder_ t')) ;;
  ret (U64.add (ptr_ h) (offset_ t')).

(** [Tensor::mutable_data<T>(DDim dims, platform::Place place)] *)
Definition mutable_data_dims (T : PodType) (d : DDim) (place : Place) : M Z :=
  Resize d ;;
  mutable_data T place.

(** [Tensor::ShareDataWith<T>(const Tensor& src)]; the result is [*this]. *)
Definition ShareDataWith (T : PodType) (src : Tensor) : M Tensor :=
  const_call (check_memory_size T src) ;;
  put_this src ;;
  get_this.

(** [Tensor::CopyFrom<T>(src, dst_place, ctx)].  [src] is read before the
    receiver is written, except for [src.numel()], which reads the shape the
    receiver was just resized to; so the model takes [src] by value.  The
    three branches under [#ifdef PADDLE_WITH_CUDA] exist in that build only. *)
Definition CopyFrom (T : PodType) (src : Tensor) (dst_place : Place)
    (ctx : DeviceContext) : M unit :=
  const_call (check_memory_size T src) ;;
  Resize (dims src) ;;
  src_holder <- const_call (deref (holder_ src)) ;;
  let src_place := place_ src_holder in
  src_ptr <- const_call (data T src) ;;
  dst_ptr <- mutable_data T dst_place ;;
  let size := U64.mul (numel src) (sizeof T) in
  if is_cpu_place src_place && is_cpu_place dst_place then
    memory_Copy dst_place dst_ptr src_place src_ptr size None
  else if PADDLE_WITH_CUDA then
    if is_gpu_place src_place && is_cpu_place dst_place then
      let ctx_place := GetPlace ctx in
      enforce (is_gpu_place ctx_place) CtxNotOnGPU ;;
      enforce (Place_eqb src_place ctx_place) CtxPlaceMismatch ;;
      memory_Copy dst_place dst_ptr src_place src_ptr size (Some ctx)
    else if is_cpu_place src_place && is_gpu_place dst_place then
      let ctx_place := GetPlace ctx in
      enforce (is_gpu_place ctx_place) CtxNotOnGPU ;;
      enforce (Place_eqb dst_place ctx_place) CtxPlaceMismatch ;;
      memory_Copy dst_place dst_ptr src_place src_ptr size (Some ctx)
    else if is_gpu_place src_place && is_gpu_place dst_place then
      let ctx_place := GetPlace ctx in
      enforce (is_gpu_place ctx_place) CtxNotOnGPU ;;
      enforce (Place_eqb src_place ctx_place) CtxPlaceMismatch ;;
      memory_Copy dst_place dst_ptr src_place src_ptr size (Some ctx)
    else ret tt
  else ret tt.

(** [Tensor::CopyFromVector<T>(src, ctx)]; of the vector the body uses
    [src.data()] and [src.size()]. *)
Definition CopyFromVector (T : PodType) (src_data : Z) (src_size : Z)
    (ctx : DeviceContext) : M unit :=
  let dst_place := GetPlace ctx in
  let src_ptr := src_data in
  let src_place := CPUPlace in
  dst_ptr <- mutable_data T dst_place ;;
  let size := U64.mul src_size (sizeof T) in
  if is_cpu_place dst_place then
    memory_Copy dst_place dst_ptr src_place src_ptr size None
  else if PADDLE_WITH_CUDA then
    if is_gpu_place dst_place then
      memory_Copy dst_place dst_ptr src_place src_ptr size (Some ctx)
    else ret tt
  else ret tt.

(** [dims_[0]] *)
Definition dims0 (t : Tensor) : Res Z :=
  match leading (dims_ t) with
  | Some d => Ok d
  | None => Throw InvalidIndex
  end.

(** [Tensor::Slice<T>(begin_idx, end_idx) const].  The three index checks
    come before the test of [dims_[0] == 1].  [numel() / dims_[0]] is the
    truncating division of [int64_t], stored in a [size_t];
    [begin_idx * base * sizeof(T)] and the sum with [offset_] are computed in
    [size_t].  [begin_idx] and [end_idx] are [int]s; past the checks
    [0 <= begin_idx < end_idx], so [end_idx - begin_idx] does not overflow.
    [dst] starts as a new tensor and its three fields are set. *)
Definition Slice (T : PodType) (begin_idx end_idx : Z) (t : Tensor)
  : Res Tensor :=
  _ <-- check_memory_size T t ;;
  _ <-- enforceR (begin_idx >=? 0) SliceBeginNegative ;;
  d0 <-- dims0 t ;;
  _ <-- enforceR (end_idx <=? d0) SliceEndOutOfBound ;;
  _ <-- enforceR (begin_idx <? end_idx) SliceBeginNotBelowEnd ;;
  if d0 =? 1 then Ok t
  else
    let base := U64.wrap (Z.quot (numel t) d0) in
    let dst := new_Tensor in
    let dst := {| holder_ := holder_ t; dims_ := dims_ dst;
                  offset_ := offset_ dst |} in
    let dst_dims := set_leading (dims_ t) (end_idx - begin_idx) in
    let dst := {| holder_ := holder_ dst; dims_ := dst_dims;
                  offset_ := offset_ dst |} in
    let dst := {| holder_ := holder_ dst; dims_ := dims_ dst;
                  offset_ := U64.add (offset_ t)
                               (U64.mul (U64.mul begin_idx base) (sizeof T)) |} in
    Ok dst.

(** [ReshapeToMatrix<T>(const Tensor& src, int num_col_dims)]: [res] is a
    local tensor; the result is [res] as the two calls leave it. *)
Definition ReshapeToMatrix (T : PodType) (src : Tensor) (num_col_dims : Z)
    (w : World) : Res Tensor * World :=
  let '(r, _, w') :=
    on_object new_Tensor
      (ShareDataWith T src ;;
       Resize (flatten_to_2d (dims src) num_col_dims))
      w in
  (r, w').

End TensorImpl.

(** ** The outcomes of [mutable_data] *)

(** The holder is there, lives in [place] and is large enough for the shape
    at the offset: [numel() * sizeof(T) + offset_] in [size_t]. *)
Definition reusable (T : PodType) (place : Place) (t : Tensor) : Prop :=
  exists h, holder_ t = Some h
            /\ place_ h = place
            /\ size_ h >= U64.add (U64.mul (numel t) (sizeof T)) (offset_ t).



(** The places a build can allocate in: the host, and a device when the
    build defines [PADDLE_WITH_CUDA]. *)
Definition supported (cuda : bool) (place : Place) : bool :=
  is_cpu_place place || cuda.

(** ** Concrete tensors *)

(** An allocator that hands out one page per allocation. *)
Definition page_allocator : Place -> Z -> nat -> Z :=
  fun _ _ n => 4096 * (Z.of_nat n + 1).

Definition empty_world : World := {| allocated := []; copies := [] |}.

Definition host_buffer : Placeholder :=
  {| serial_ := 0; ptr_ := 4096; place_ := CPUPlace; size_ := 100 |}.

Definition device_buffer : Placeholder :=
  {| serial_ := 0; ptr_ := 4096; place_ := GPUPlace 0; size_ := 100 |}.

Definition row_1x4 : Tensor :=
  {| holder_ := Some host_buffer; dims_ := [1; 4]; offset_ := 0 |}.

Definition matrix_5x4 : Tensor :=
  {| holder_ := Some host_buffer; dims_ := [5; 4]; offset_ := 8 |}.

Definition cube_2x3x4 : Tensor :=
  {| holder_ := Some host_buffer; dims_ := [2; 3; 4]; offset_ := 4 |}.

Definition on_device_0 : Tensor :=
  {| holder_ := Some device_buffer; dims_ := [2; 3]; offset_ := 0 |}.

(** A tensor that was created and resized to [2, 3], in an empty world. *)
Definition fresh_2x3 : St :=
  {| this := {| holder_ := None; dims_ := [2; 3]; offset_ := 0 |};
     world := empty_world |}.

Definition zero_extent : St :=
  {| this := {| holder_ := None; dims_ := [3; 0; 2]; offset_ := 0 |};
     world := empty_world |}.

Definition held_5x4 : St :=
  {| this := matrix_5x4;
     world := {| allocated := [host_buffer]; copies := [] |} |}.




(** A shape whose product of extents, [2 ^ 64], does not fit [int64_t]. *)
Definition square_2_32 : St :=
  {| this := {| holder_ := Some host_buffer; dims_ := [2 ^ 32; 2 ^ 32];
                offset_ := 8 |};
     world := {| allocated := [host_buffer]; copies := [] |} |}.

(** [fresh_2x3] after [mutable_data<float>(CPUPlace)] with [page_allocator]. *)
Definition first_buffer : Placeholder :=
  {| serial_ := 0; ptr_ := 4096; place_ := CPUPlace; size_ := 24 |}.

Definition first_2x3 : St :=
  {| this := {| holder_ := Some first_buffer; dims_ := [2; 3]; offset_ := 0 |};
     world := {| allocated := [first_buffer]; copies := [] |} |}.

(** Rows 1 to 3 of [matrix_5x4], and rows 2 and 3. *)
Definition rows_1_to_4 : Tensor :=
  {| holder_ := Some host_buffer; dims_ := [3; 4]; offset_ := 24 |}.

Definition rows_2_to_4 : Tensor :=
  {| holder_ := Some host_buffer; dims_ := [2; 4]; offset_ := 40 |}.

(** ** Facts about the machine arithmetic *)

Lemma wrap_bounds (x : Z) : 0 <= U64.wrap x < U64.modulus.
Proof. unfold U64.wrap, U64.modulus. apply Z.mod_pos_bound. lia. Qed.

Lemma wrap_exact (x : Z) : 0 <= x < U64.modulus -> U64.wrap x = x.
Proof. intros Hx. unfold U64.wrap. now apply Z.mod_small. Qed.

Lemma wrap_idempotent (x : Z) : U64.wrap (U64.wrap x) = U64.wrap x.
Proof. apply wrap_exact, wrap_bounds. Qed.

(** Reading 64 bits as [int64_t] and back as [size_t] gives the bits back. *)
Lemma wrap_to_int64 (x : Z) : U64.wrap (U64.to_int64 x) = U64.wrap x.
Proof.
  unfold U64.to_int64. cbv zeta.
  destruct (U64.wrap x <? 2 ^ 63).
  - apply wrap_idempotent.
  - unfold U64.wrap at 1.
    replace (U64.wrap x - U64.modulus) with (U64.wrap x + (-1) * U64.modulus) by ring.
    rewrite Z.mod_add by (unfold U64.modulus; lia).
    apply wrap_idempotent.
Qed.

Lemma add_wrap_l (x y : Z) : U64.add (U64.wrap x) y = U64.add x y.
Proof.
  unfold U64.add, U64.wrap. now rewrite Zplus_mod_idemp_l.
Qed.

Lemma add_to_int64_l (x y : Z) : U64.add (U64.to_int64 x) y = U64.add x y.
Proof. now rewrite <- add_wrap_l, wrap_to_int64, add_wrap_l. Qed.

Lemma wrap_mul (x y : Z) : U64.wrap (U64.mul x y) = U64.mul x y.
Proof. apply wrap_idempotent. Qed.

Lemma add_exact (x y : Z) : 0 <= x + y < U64.modulus -> U64.add x y = x + y.
Proof. apply wrap_exact. Qed.

Lemma mul_exact (x y : Z) : 0 <= x * y < U64.modulus -> U64.mul x y = x * y.
Proof. apply wrap_exact. Qed.

(** The size a new placeholder is built with, and the bound
    [mutable_data] compares with, in terms of the product in [size_t]. *)
Lemma wrap_size (n sz : Z) :
  U64.wrap (U64.to_int64 (U64.mul n sz)) = U64.mul n sz.
Proof. now rewrite wrap_to_int64, wrap_mul. Qed.

(** A value that fits [int64_t] is kept by the conversion. *)
Lemma to_int64_exact (x : Z) : - 2 ^ 63 <= x < 2 ^ 63 -> U64.to_int64 x = x.
Proof.
  intros Hx. unfold U64.to_int64. cbv zeta.
  assert (Hm : U64.modulus = 2 * 2 ^ 63) by reflexivity.
  destruct (Z_lt_ge_dec x 0) as [Hneg | Hpos].
  - assert (Hw : U64.wrap x = x + U64.modulus).
    { unfold U64.wrap.
      replace x with (x + U64.modulus + (-1) * U64.modulus) at 1 by ring.
      rewrite Z.mod_add by (rewrite Hm; lia).
      apply Z.mod_small. lia. }
    rewrite Hw. replace (x + U64.modulus <? 2 ^ 63) with false
      by (symmetry; apply Z.ltb_ge; lia).
    ring.
  - rewrite (wrap_exact x) by lia.
    replace (x <? 2 ^ 63) with true by (symmetry; apply Z.ltb_lt; lia).
    reflexivity.
Qed.

(** [numel()] is the exact product when the product fits [int64_t]. *)
Lemma numel_exact (t : Tensor) :
  - 2 ^ 63 <= product (dims_ t) < 2 ^ 63 -> numel t = product (dims_ t).
Proof. apply to_int64_exact. Qed.

(** ** Facts about places and shapes *)

Lemma Place_eqb_eq (p q : Place) : Place_eqb p q = true <-> p = q.
Proof.
  destruct p as [|d], q as [|e]; simpl; split; intros H;
    try reflexivity; try discriminate.
  - apply Z.eqb_eq in H. now subst.
  - injection H as ->. apply Z.eqb_refl.
Qed.

Lemma Place_eqb_refl (p : Place) : Place_eqb p p = true.
Proof. now apply Place_eqb_eq. Qed.

Lemma Place_eqb_neq (p q : Place) : Place_eqb p q = false <-> p <> q.
Proof.
  split.
  - intros H E. apply Place_eqb_eq in E. congruence.
  - intros H. destruct (Place_eqb p q) eqn:E; [|reflexivity].
    apply Place_eqb_eq in E. contradiction.
Qed.

Lemma product_zero_extent (d : DDim) : In 0 d -> product d = 0.
Proof.
  induction d as [|x r IH]; simpl; intros H.
  - contradiction.
  - destruct H as [-> | H]; [reflexivity|]. rewrite (IH H). lia.
Qed.

Lemma product_app (d e : DDim) : product (d ++ e) = product d * product e.
Proof.
  induction d as [|x r IH]; simpl.
  - now destruct (product e).
  - rewrite IH. ring.
Qed.

Lemma product_split (n : nat) (d : DDim) :
  product (firstn n d) * product (skipn n d) = product d.
Proof. now rewrite <- product_app, firstn_skipn. Qed.

Lemma cons_neq_self {A : Type} (x : A) (l : list A) : x :: l <> l.
Proof.
  intros H. apply (f_equal (@length A)) in H. simpl in H. lia.
Qed.

(** ** Typed access: [check_memory_size] and [data] *)

Lemma check_memory_size_passes (T : PodType) (t : Tensor) :
  check_memory_size T t = Ok tt <->
  exists h, holder_ t = Some h /\
            size_ h >= U64.add (U64.mul (numel t) (sizeof T)) (offset_ t).
Proof.
  unfold check_memory_size, enforceR.
  destruct (holder_ t) as [h|].
  - destruct (size_ h >=? _) eqn:E; split.
    + intros _. exists h. split; [reflexivity|]. apply Z.geb_le in E. lia.
    + reflexivity.
    + discriminate.
    + intros (h' & Hh & Hs). injection Hh as <-.
      rewrite Z.geb_leb in E. apply Z.leb_gt in E. lia.
  - split; [discriminate|]. intros (h & Hh & _). discriminate.
Qed.

Lemma data_after_check (T : PodType) (t : Tensor) (h : Placeholder) :
  holder_ t = Some h ->
  check_memory_size T t = Ok tt ->
  data T t = Ok (U64.add (ptr_ h) (offset_ t)).
Proof.
  intros Hh Hc. unfold data. rewrite Hc, Hh. reflexivity.
Qed.

Lemma data_fails_with_check (T : PodType) (t : Tensor) (e : Error) :
  data T t = Throw e <-> check_memory_size T t = Throw e.
Proof.
  unfold data. destruct (check_memory_size T t) as [[]|e'] eqn:Hc; simpl.
  - destruct (proj1 (check_memory_size_passes T t) Hc) as (h & Hh & _).
    rewrite Hh. simpl. split; discriminate.
  - split; intros H; injection H as ->; reflexivity.
Qed.


(** ** [Resize] *)

(** C6.  For every shape and every state, [Resize] succeeds (it checks
    nothing), replaces the shape and nothing else -- the holder, the offset
    and the world, hence the allocator's log, are as before -- and its result
    is the receiver as the call leaves it. *)
Theorem Resize_replaces_shape_only (d : DDim) (s : St) :
  let t' := {| holder_ := holder_ (this s); dims_ := d;
               offset_ := offset_ (this s) |} in
  Resize d s = (Ok t', {| this := t'; world := world s |}).
Proof. reflexivity. Qed.

(** ** [ShareDataWith] *)

(** C9.  When [src] passes the check of [data<T>()], [ShareDataWith] makes
    the receiver equal to [src] in holder, shape and offset, and its result
    is the receiver; the world is untouched.  When [src] fails the check,
    the call fails with the error [data<T>()] gives on [src] and the state
    is as before. *)
Theorem ShareDataWith_aliases (T : PodType) (src : Tensor) (s : St) :
  (forall p, data T src = Ok p ->
     ShareDataWith T src s = (Ok src, {| this := src; world := world s |}))
  /\ (forall e, data T src = Throw e ->
        ShareDataWith T src s = (Throw e, s)).
Proof.
  split.
  - intros p Hd.
    unfold ShareDataWith, bind, const_call, put_this, get_this.
    destruct (check_memory_size T src) as [[]|e] eqn:Hc.
    + reflexivity.
    + apply data_fails_with_check in Hc. congruence.
  - intros e Hd. apply data_fails_with_check in Hd.
    unfold ShareDataWith, bind, const_call. now rewrite Hd.
Qed.

(** ** [Slice] *)

Lemma data_passes_check (T : PodType) (t : Tensor) :
  (exists p, data T t = Ok p) <-> check_memory_size T t = Ok tt.
Proof.
  split.
  - intros [p Hp]. destruct (check_memory_size T t) as [[]|e] eqn:Hc.
    + reflexivity.
    + apply data_fails_with_check in Hc. congruence.
  - intros Hc. destruct (proj1 (check_memory_size_passes T t) Hc) as (h & Hh & _).
    exists (U64.add (ptr_ h) (offset_ t)). now apply data_after_check.
Qed.

Lemma geb_true (x y : Z) : y <= x -> (x >=? y) = true.
Proof. intros H. rewrite Z.geb_leb. now apply Z.leb_le. Qed.

Lemma geb_false (x y : Z) : x < y -> (x >=? y) = false.
Proof. intros H. rewrite Z.geb_leb. now apply Z.leb_gt. Qed.

(** The checks of [Slice] that come before the branch on [dims_[0]]. *)
Lemma Slice_checks_pass (T : PodType) (t : Tensor) (begin_idx end_idx d0 : Z) :
  leading (dims_ t) = Some d0 ->
  check_memory_size T t = Ok tt ->
  0 <= begin_idx -> end_idx <= d0 -> begin_idx < end_idx ->
  Slice T begin_idx end_idx t =
  if d0 =? 1 then Ok t
  else Ok {| holder_ := holder_ t;
             dims_ := set_leading (dims_ t) (end_idx - begin_idx);
             offset_ := U64.add (offset_ t)
                          (U64.mul (U64.mul begin_idx
                                      (U64.wrap (Z.quot (numel t) d0)))
                                   (sizeof T)) |}.
Proof.
  intros Hd Hc Hb He Hlt. unfold Slice, dims0. rewrite Hc, Hd. simpl.
  rewrite (geb_true begin_idx 0 Hb). simpl.
  rewrite (proj2 (Z.leb_le end_idx d0) He). simpl.
  rewrite (proj2 (Z.ltb_lt begin_idx end_idx) Hlt). simpl.
  reflexivity.
Qed.


(** C2, as the header has it.  On a tensor with leading extent 1 that passes
    the check of [data<T>()], [Slice] gives the tensor back unchanged when
    [0 <= begin], [end <= dims_[0]] and [begin < end] (so [begin = 0] and
    [end = 1]); the three index checks run before the test of the leading
    extent, so other indices are refused with the errors they get for any
    other leading extent. *)
Theorem Slice_single_row (T : PodType) (t : Tensor) (begin_idx end_idx : Z) :
  leading (dims_ t) = Some 1 ->
  (exists p, data T t = Ok p) ->
  (0 <= begin_idx -> end_idx <= 1 -> begin_idx < end_idx ->
     Slice T begin_idx end_idx t = Ok t /\ begin_idx = 0 /\ end_idx = 1)
  /\ (begin_idx < 0 -> Slice T begin_idx end_idx t = Throw SliceBeginNegative)
  /\ (0 <= begin_idx -> 1 < end_idx ->
        Slice T begin_idx end_idx t = Throw SliceEndOutOfBound)
  /\ (0 <= begin_idx -> end_idx <= 1 -> end_idx <= begin_idx ->
        Slice T begin_idx end_idx t = Throw SliceBeginNotBelowEnd).
Proof.
  intros Hd Hdata. apply data_passes_check in Hdata.
  split; [|split; [|split]].
  - intros Hb He Hlt. split; [|lia].
    now rewrite (Slice_checks_pass T t begin_idx end_idx 1).
  - intros Hb. unfold Slice. rewrite Hdata. simpl.
    now rewrite (geb_false begin_idx 0 Hb).
  - intros Hb He. unfold Slice, dims0. rewrite Hdata, Hd. simpl.
    rewrite (geb_true begin_idx 0 Hb). simpl.
    now rewrite (proj2 (Z.leb_gt end_idx 1) He).
  - intros Hb He Hge. unfold Slice, dims0. rewrite Hdata, Hd. simpl.
    rewrite (geb_true begin_idx 0 Hb). simpl.
    rewrite (proj2 (Z.leb_le end_idx 1) He). simpl.
    now rewrite (proj2 (Z.ltb_ge begin_idx end_idx) Hge).
Qed.

(** ** [ReshapeToMatrix] *)

(** C8.  For a source that passes the check of [data<T>()] and a split point
    strictly inside the shape (so that extents are left on both sides),
    [ReshapeToMatrix] gives a tensor with the source's holder and offset
    whose shape has two extents, the product of the leading [num_col_dims]
    extents and the product of the others; the number of elements is the
    source's, and the world is untouched. *)
Theorem ReshapeToMatrix_view (T : PodType) (src : Tensor) (num_col_dims : Z)
    (w : World) :
  (exists p, data T src = Ok p) ->
  0 < num_col_dims < Z.of_nat (length (dims src)) ->
  exists res : Tensor,
    ReshapeToMatrix T src num_col_dims w = (Ok res, w)
    /\ holder_ res = holder_ src
    /\ offset_ res = offset_ src
    /\ dims_ res = [ product (firstn (Z.to_nat num_col_dims) (dims src));
                     product (skipn (Z.to_nat num_col_dims) (dims src)) ]
    /\ Z.of_nat (length (firstn (Z.to_nat num_col_dims) (dims src)))
       = num_col_dims
    /\ length (dims_ res) = 2%nat
    /\ numel res = numel src.
Proof.
  intros Hdata Hk. apply data_passes_check in Hdata.
  exists {| holder_ := holder_ src;
            dims_ := flatten_to_2d (dims src) num_col_dims;
            offset_ := offset_ src |}.
  split; [|split; [|split; [|split; [|split; [|split]]]]]; try reflexivity.
  - unfold ReshapeToMatrix, on_object, ShareDataWith, Resize, set_dims,
      bind, const_call, put_this, get_this.
    rewrite Hdata. destruct w. reflexivity.
  - rewrite length_firstn. lia.
  - unfold numel, flatten_to_2d, dims. cbn [dims_ product].
    now rewrite Z.mul_1_r, product_split.
Qed.

(** ** [mutable_data] *)

Section AllocationAndCopy.

Variable PADDLE_WITH_CUDA : bool.
Variable memory_Alloc : Place -> Z -> nat -> Z.

(** The test of [mutable_data] is false exactly on a reusable holder. *)
Lemma reallocation_test (T : PodType) (place : Place) (t : Tensor) :
  match holder_ t with
  | None => true
  | Some h => negb (Place_eqb (place_ h) place)
              || (size_ h <? U64.add (U64.to_int64 (U64.mul (numel t) (sizeof T)))
                                     (offset_ t))
  end = false
  <-> reusable T place t.
Proof.
  unfold reusable. destruct (holder_ t) as [h|].
  - rewrite add_to_int64_l, orb_false_iff, negb_false_iff, Place_eqb_eq, Z.ltb_ge.
    split.
    + intros [Hp Hs]. exists h. repeat split; [assumption | lia].
    + intros (h' & Hh & Hp & Hs). injection Hh as <-. split; [assumption | lia].
  - split; [discriminate|]. intros (h & Hh & _). discriminate.
Qed.

Lemma reallocation_needed (T : PodType) (place : Place) (t : Tensor) :
  ~ reusable T place t ->
  match holder_ t with
  | None => true
  | Some h => negb (Place_eqb (place_ h) place)
              || (size_ h <? U64.add (U64.to_int64 (U64.mul (numel t) (sizeof T)))
                                     (offset_ t))
  end = true.
Proof.
  intros Hr.
  destruct (match holder_ t with None => true | Some _ => _ end) eqn:E;
    [reflexivity|].
  apply reallocation_test in E. contradiction.
Qed.

Lemma reusable_dec (T : PodType) (place : Place) (t : Tensor) :
  reusable T place t \/ ~ reusable T place t.
Proof.
  destruct (match holder_ t with
            | None => true
            | Some h => negb (Place_eqb (place_ h) place)
                        || (size_ h <? U64.add (U64.to_int64 (U64.mul (numel t) (sizeof T)))
                                               (offset_ t))
            end) eqn:E.
  - right. intros H. apply reallocation_test in H. congruence.
  - left. now apply reallocation_test.
Qed.

(** Entering [mutable_data]: the check of [numel()] has passed. *)
Ltac enter_mutable_data :=
  unfold mutable_data, bind, get_this, enforce, const_call, enforceR;
  replace (numel (this _) >? 0) with true
    by (symmetry; rewrite Z.gtb_ltb; apply Z.ltb_lt; lia).

Lemma mutable_data_numel_check (T : PodType) (place : Place) (s : St) :
  numel (this s) <= 0 ->
  mutable_data PADDLE_WITH_CUDA memory_Alloc T place s = (Throw NumelNotPositive, s).
Proof.
  intros Hn. unfold mutable_data, bind, get_this, enforce, const_call, enforceR.
  replace (numel (this s) >? 0) with false; [reflexivity|].
  symmetry. rewrite Z.gtb_ltb. apply Z.ltb_ge. exact Hn.
Qed.

Lemma mutable_data_on_reuse (T : PodType) (place : Place) (s : St)
    (h : Placeholder) :
  numel (this s) > 0 ->
  holder_ (this s) = Some h ->
  place_ h = place ->
  size_ h >= U64.add (U64.mul (numel (this s)) (sizeof T)) (offset_ (this s)) ->
  mutable_data PADDLE_WITH_CUDA memory_Alloc T place s = (Ok (U64.add (ptr_ h) (offset_ (this s))), s).
Proof.
  intros Hn Hh Hp Hs.
  assert (Ht : reusable T place (this s)) by (exists h; auto).
  apply reallocation_test in Ht.
  enter_mutable_data.
  rewrite Ht. unfold ret. rewrite Hh. reflexivity.
Qed.

Lemma mutable_data_on_allocation (T : PodType) (place : Place) (s : St) :
  numel (this s) > 0 ->
  ~ reusable T place (this s) ->
  supported PADDLE_WITH_CUDA place = true ->
  let size := U64.mul (numel (this s)) (sizeof T) in
  let n := length (allocated (world s)) in
  let h := {| serial_ := n; ptr_ := memory_Alloc place size n;
              place_ := place; size_ := size |} in
  mutable_data PADDLE_WITH_CUDA memory_Alloc T place s =
  (Ok (U64.add (ptr_ h) 0),
   {| this := {| holder_ := Some h; dims_ := dims_ (this s); offset_ := 0 |};
      world := {| allocated := h :: allocated (world s);
                  copies := copies (world s) |} |}).
Proof.
  intros Hn Hr Hsup size n h.
  pose proof (reallocation_needed T place (this s) Hr) as Ht.
  enter_mutable_data.
  rewrite Ht. unfold new_Placeholder, set_holder, set_offset, bind, get_this,
    put_this, ret, throw.
  rewrite wrap_size. fold size n. fold h.
  unfold supported in Hsup.
  destruct place as [|d]; simpl in *.
  - reflexivity.
  - rewrite Hsup. reflexivity.
Qed.

Lemma mutable_data_on_unsupported (T : PodType) (place : Place) (s : St) :
  numel (this s) > 0 ->
  ~ reusable T place (this s) ->
  supported PADDLE_WITH_CUDA place = false ->
  mutable_data PADDLE_WITH_CUDA memory_Alloc T place s = (Throw GPUPlaceNotSupported, s).
Proof.
  intros Hn Hr Hsup.
  pose proof (reallocation_needed T place (this s) Hr) as Ht.
  enter_mutable_data.
  rewrite Ht. unfold supported in Hsup.
  apply orb_false_iff in Hsup. destruct Hsup as [Hcpu ->].
  destruct place as [|d]; [discriminate|]. reflexivity.
Qed.

Lemma mutable_data_dims_resizes_first (T : PodType) (d : DDim) (place : Place)
    (s : St) :
  mutable_data_dims PADDLE_WITH_CUDA memory_Alloc T d place s =
  mutable_data PADDLE_WITH_CUDA memory_Alloc T place
    {| this := {| holder_ := holder_ (this s); dims_ := d;
                  offset_ := offset_ (this s) |};
       world := world s |}.
Proof. reflexivity. Qed.




(** C7.  With [numel() <= 0] -- in particular with a zero extent in the
    shape -- [mutable_data<T>(place)] throws at once: no pointer comes back
    and the receiver and the world, hence the allocator's log, are
    unchanged. *)
Theorem mutable_data_rejects_empty_shape (T : PodType) (place : Place) (s : St) :
  numel (this s) <= 0 \/ In 0 (dims_ (this s)) ->
  mutable_data PADDLE_WITH_CUDA memory_Alloc T place s
  = (Throw NumelNotPositive, s).
Proof.
  intros H. apply mutable_data_numel_check.
  destruct H as [H | H]; [exact H|].
  unfold numel. rewrite (product_zero_extent _ H).
  change (U64.to_int64 0) with 0. lia.
Qed.

(** C10.  On the reuse path of [mutable_data<T>(place)] -- holder there,
    same place, large enough -- the whole state is left as it was, so the
    offset and the holder are unchanged, and the pointer returned is the
    holder's pointer plus the offset. *)
Theorem mutable_data_reuse_keeps_offset (T : PodType) (place : Place) (s : St)
    (h : Placeholder) :
  numel (this s) > 0 ->
  holder_ (this s) = Some h ->
  place_ h = place ->
  size_ h >= U64.add (U64.mul (numel (this s)) (sizeof T)) (offset_ (this s)) ->
  exists s',
    mutable_data PADDLE_WITH_CUDA memory_Alloc T place s
    = (Ok (U64.add (ptr_ h) (offset_ (this s))), s')
    /\ offset_ (this s') = offset_ (this s)
    /\ holder_ (this s') = Some h
    /\ s' = s.
Proof.
  intros Hn Hh Hp Hs. exists s.
  rewrite (mutable_data_on_reuse T place s h) by assumption.
  repeat split. exact Hh.
Qed.

(** ** [CopyFrom] *)

Lemma mutable_data_keeps_copies (T : PodType) (place : Place) (s s' : St)
    (r : Res Z) :
  mutable_data PADDLE_WITH_CUDA memory_Alloc T place s = (r, s') ->
  copies (world s') = copies (world s).
Proof.
  intros E.
  destruct (Z_le_gt_dec (numel (this s)) 0) as [Hn | Hn].
  - rewrite mutable_data_numel_check in E by assumption. now injection E as _ <-.
  - destruct (reusable_dec T place (this s)) as [(h & Hh & Hp & Hs) | Hr].
    + rewrite (mutable_data_on_reuse T place s h) in E by assumption.
      now injection E as _ <-.
    + destruct (supported PADDLE_WITH_CUDA place) eqn:Hsup.
      * pose proof (mutable_data_on_allocation T place s Hn Hr Hsup) as E'.
        cbv zeta in E'. rewrite E' in E. now injection E as _ <-.
      * rewrite mutable_data_on_unsupported in E by assumption.
        now injection E as _ <-.
Qed.

Lemma mutable_data_succeeds (T : PodType) (place : Place) (s : St) :
  numel (this s) > 0 ->
  supported PADDLE_WITH_CUDA place = true ->
  exists p s', mutable_data PADDLE_WITH_CUDA memory_Alloc T place s = (Ok p, s').
Proof.
  intros Hn Hsup.
  destruct (reusable_dec T place (this s)) as [(h & Hh & Hp & Hs) | Hr].
  - eexists _, _. now apply (mutable_data_on_reuse T place s h).
  - pose proof (mutable_data_on_allocation T place s Hn Hr Hsup) as E.
    cbv zeta in E. eexists _, _. exact E.
Qed.

(** The device-to-device branch of [CopyFrom], once [src] has passed its
    check: the destination is prepared, then the context is compared with
    the place of the source. *)
Lemma CopyFrom_between_devices (T : PodType) (src : Tensor)
    (ctx : DeviceContext) (s : St) (h : Placeholder) (ds dd : Z) :
  PADDLE_WITH_CUDA = true ->
  holder_ src = Some h ->
  place_ h = GPUPlace ds ->
  check_memory_size T src = Ok tt ->
  CopyFrom PADDLE_WITH_CUDA memory_Alloc T src (GPUPlace dd) ctx s =
  match mutable_data PADDLE_WITH_CUDA memory_Alloc T (GPUPlace dd)
          {| this := {| holder_ := holder_ (this s); dims_ := dims src;
                        offset_ := offset_ (this s) |};
             world := world s |} with
  | (Ok dst_ptr, s') =>
      if is_gpu_place (GetPlace ctx) then
        if Place_eqb (GPUPlace ds) (GetPlace ctx) then
          memory_Copy (GPUPlace dd) dst_ptr (GPUPlace ds)
            (U64.add (ptr_ h) (offset_ src))
            (U64.mul (numel src) (sizeof T)) (Some ctx) s'
        else (Throw CtxPlaceMismatch, s')
      else (Throw CtxNotOnGPU, s')
  | (Throw e, s') => (Throw e, s')
  end.
Proof.
  intros Hcuda Hh Hp Hc.
  unfold CopyFrom, bind at 1, const_call at 1. rewrite Hc.
  unfold bind at 1, Resize, bind at 1, set_dims, bind at 1, get_this at 1,
    put_this, get_this at 1.
  unfold bind at 1, const_call at 1. rewrite Hh. simpl deref.
  unfold bind at 1, const_call at 1.
  rewrite (data_after_check T src h Hh Hc).
  unfold bind at 1. rewrite Hp, Hcuda.
  destruct (mutable_data _ _ _ _ _) as [[dst_ptr | e] s']; [|reflexivity].
  simpl. unfold bind, enforce, const_call, enforceR.
  destruct (GetPlace ctx) as [|dc]; simpl; [reflexivity|].
  destruct (ds =? dc); reflexivity.
Qed.

(** C3, as the header has it.  In a build with [PADDLE_WITH_CUDA], when the
    source's holder and [dst_place] are both device places, [CopyFrom] fails
    unless the context is on the very device of the source: a context on the
    host fails the first check and a context on another device fails the
    comparison (once the source passes its check and has elements).  The
    device of the destination is not compared with the context: with the
    context on the source's device the copy is issued on the context's
    stream whatever the destination's device. *)
Theorem CopyFrom_device_to_device (T : PodType) (src : Tensor)
    (ctx : DeviceContext) (s : St) (h : Placeholder) (ds dd : Z) :
  PADDLE_WITH_CUDA = true ->
  holder_ src = Some h ->
  place_ h = GPUPlace ds ->
  let call := CopyFrom PADDLE_WITH_CUDA memory_Alloc T src (GPUPlace dd) ctx in
  (GetPlace ctx <> GPUPlace ds ->
     exists e s', call s = (Throw e, s')
                  /\ copies (world s') = copies (world s))
  /\ ((exists p, data T src = Ok p) -> numel src > 0 ->
      (GetPlace ctx = CPUPlace -> fst (call s) = Throw CtxNotOnGPU)
      /\ (forall dc, GetPlace ctx = GPUPlace dc -> dc <> ds ->
            fst (call s) = Throw CtxPlaceMismatch)
      /\ (GetPlace ctx = GPUPlace ds ->
            exists s' c, call s = (Ok tt, s')
                         /\ copies (world s') = c :: copies (world s)
                         /\ copy_src_place c = GPUPlace ds
                         /\ copy_dst_place c = GPUPlace dd
                         /\ copy_num c = U64.mul (numel src) (sizeof T)
                         /\ copy_stream c = Some ctx)).
Proof.
  intros Hcuda Hh Hp call.
  set (s0 := {| this := {| holder_ := holder_ (this s); dims_ := dims src;
                           offset_ := offset_ (this s) |};
                world := world s |}).
  split.
  - intros Hctx.
    destruct (check_memory_size T src) as [[]|e] eqn:Hc.
    + subst call. rewrite (CopyFrom_between_devices T src ctx s h ds dd) by assumption.
      fold s0.
      destruct (mutable_data _ _ _ _ s0) as [[dst_ptr | e] s'] eqn:E;
        pose proof (mutable_data_keeps_copies _ _ _ _ _ E) as Hk; simpl in Hk.
      * destruct (GetPlace ctx) as [|dc] eqn:Hg; simpl.
        -- eexists _, _. split; [reflexivity | exact Hk].
        -- destruct (ds =? dc) eqn:Hd.
           ++ apply Z.eqb_eq in Hd. subst dc. contradiction.
           ++ eexists _, _. split; [reflexivity | exact Hk].
      * eexists _, _. split; [reflexivity | exact Hk].
    + exists e, s. split; [|reflexivity].
      subst call. unfold CopyFrom, bind, const_call. now rewrite Hc.
  - intros Hdata Hn. apply data_passes_check in Hdata.
    assert (Hsup : supported PADDLE_WITH_CUDA (GPUPlace dd) = true)
      by (unfold supported; rewrite Hcuda; apply orb_true_r).
    assert (Hn0 : numel (this s0) > 0) by exact Hn.
    destruct (mutable_data_succeeds T (GPUPlace dd) s0 Hn0 Hsup) as (p & s' & E).
    pose proof (mutable_data_keeps_copies _ _ _ _ _ E) as Hk. simpl in Hk.
    subst call.
    rewrite (CopyFrom_between_devices T src ctx s h ds dd) by assumption.
    fold s0. rewrite E.
    split; [|split].
    + intros ->. reflexivity.
    + intros dc -> Hne. simpl.
      replace (ds =? dc) with false by (symmetry; apply Z.eqb_neq; congruence).
      reflexivity.
    + intros ->. simpl. rewrite Z.eqb_refl. unfold memory_Copy.
      eexists _, _. split; [reflexivity|]. simpl. rewrite Hk.
      repeat split.
Qed.

End AllocationAndCopy.

(** When nothing overflows, the bound of [check_memory_size] and of
    [mutable_data] is the exact value of [numel() * sizeof(T) + offset_]. *)
Lemma required_bound_exact (T : PodType) (t : Tensor) :
  0 <= numel t -> 0 <= offset_ t ->
  numel t * sizeof T + offset_ t < U64.modulus ->
  U64.add (U64.mul (numel t) (sizeof T)) (offset_ t)
  = numel t * sizeof T + offset_ t.
Proof.
  intros Hn Ho Hfit.
  assert (Hsz : 1 <= sizeof T) by (unfold sizeof; lia).
  rewrite mul_exact by nia. apply add_exact. nia.
Qed.

(** ** The theorems at concrete tensors *)


Lemma ShareDataWith_aliases_witness :
  ShareDataWith float_t matrix_5x4 fresh_2x3
  = (Ok matrix_5x4, {| this := matrix_5x4; world := empty_world |})
  /\ ShareDataWith double_t matrix_5x4 fresh_2x3
     = (Throw DimsOutOfBound, fresh_2x3).
Proof.
  split.
  - destruct (ShareDataWith_aliases float_t matrix_5x4 fresh_2x3) as (Hok & _).
    apply (Hok (ptr_ host_buffer + 8)). reflexivity.
  - destruct (ShareDataWith_aliases double_t matrix_5x4 fresh_2x3) as (_ & Hko).
    apply Hko. reflexivity.
Defined.





(** [numel()] is an [int64_t]: on the shape [2 ^ 32, 2 ^ 32] it is 0, so
    [mutable_data] throws; on [8, 2 ^ 61] the stride of [Slice] is 0. *)
Lemma numel_wraps_to_zero :
  numel (this square_2_32) = 0
  /\ mutable_data true page_allocator float_t CPUPlace square_2_32
     = (Throw NumelNotPositive, square_2_32)
  /\ Slice float_t 1 3
       {| holder_ := Some host_buffer; dims_ := [8; 2 ^ 61]; offset_ := 0 |}
     = Ok {| holder_ := Some host_buffer; dims_ := [2; 2 ^ 61];
             offset_ := 0 |}.
Proof. split; [reflexivity|]. split; reflexivity. Qed.

Lemma Slice_single_row_witness :
  leading (dims_ row_1x4) = Some 1
  /\ (exists p, data float_t row_1x4 = Ok p)
  /\ Slice float_t 0 1 row_1x4 = Ok row_1x4.
Proof.
  assert (Hd : leading (dims_ row_1x4) = Some 1) by reflexivity.
  assert (Hp : exists p, data float_t row_1x4 = Ok p)
    by (eexists; reflexivity).
  split; [exact Hd|]. split; [exact Hp|].
  destruct (Slice_single_row float_t row_1x4 0 1 Hd Hp) as (Hok & _).
  apply Hok; lia.
Defined.

(** C2 as the claim states it fails: on a one-row tensor, indices outside
    the bounds are refused, and so is any slice of a tensor without holder. *)
Lemma Slice_single_row_checks_indices :
  leading (dims_ row_1x4) = Some 1
  /\ Slice float_t 2 3 row_1x4 = Throw SliceEndOutOfBound
  /\ Slice float_t 2 3 row_1x4 <> Ok row_1x4
  /\ Slice float_t (-1) 1 row_1x4 = Throw SliceBeginNegative
  /\ Slice float_t 0 1 {| holder_ := None; dims_ := [1; 4]; offset_ := 0 |}
     = Throw HolderIsNull.
Proof.
  split; [reflexivity|]. split; [reflexivity|]. split; [discriminate|].
  split; reflexivity.
Qed.


Lemma mutable_data_rejects_empty_shape_witness :
  In 0 (dims_ (this zero_extent))
  /\ mutable_data true page_allocator float_t CPUPlace zero_extent
     = (Throw NumelNotPositive, zero_extent).
Proof.
  assert (H : In 0 (dims_ (this zero_extent))) by (simpl; auto).
  split; [exact H|].
  apply (mutable_data_rejects_empty_shape true page_allocator float_t CPUPlace
           zero_extent).
  right. exact H.
Defined.

Lemma ReshapeToMatrix_view_witness :
  (exists p, data float_t cube_2x3x4 = Ok p)
  /\ (exists res, ReshapeToMatrix float_t cube_2x3x4 1 empty_world
                  = (Ok res, empty_world)
                  /\ dims_ res = [2; 12]
                  /\ holder_ res = holder_ cube_2x3x4
                  /\ numel res = 24)
  /\ (exists res, ReshapeToMatrix float_t cube_2x3x4 2 empty_world
                  = (Ok res, empty_world)
                  /\ dims_ res = [6; 4]
                  /\ holder_ res = holder_ cube_2x3x4
                  /\ numel res = 24).
Proof.
  assert (Hp : exists p, data float_t cube_2x3x4 = Ok p)
    by (eexists; reflexivity).
  split; [exact Hp|]. split.
  - destruct (ReshapeToMatrix_view float_t cube_2x3x4 1 empty_world Hp)
      as (res & E & Hh & _ & Hd & _ & _ & Hn); [simpl; lia|].
    exists res. repeat split; assumption.
  - destruct (ReshapeToMatrix_view float_t cube_2x3x4 2 empty_world Hp)
      as (res & E & Hh & _ & Hd & _ & _ & Hn); [simpl; lia|].
    exists res. repeat split; assumption.
Defined.

Lemma mutable_data_reuse_keeps_offset_witness :
  numel (this held_5x4) > 0
  /\ holder_ (this held_5x4) = Some host_buffer
  /\ size_ host_buffer >= 5 * 4 * sizeof float_t + offset_ (this held_5x4)
  /\ mutable_data false page_allocator float_t CPUPlace held_5x4
     = (Ok (ptr_ host_buffer + 8), held_5x4).
Proof.
  assert (Hn : numel (this held_5x4) > 0) by reflexivity.
  assert (Hh : holder_ (this held_5x4) = Some host_buffer) by reflexivity.
  split; [exact Hn|]. split; [exact Hh|]. split; [vm_compute; discriminate|].
  destruct (mutable_data_reuse_keeps_offset false page_allocator float_t
              CPUPlace held_5x4 host_buffer Hn Hh eq_refl)
    as (s' & E & _ & _ & ->).
  - vm_compute. discriminate.
  - exact E.
Defined.

Lemma CopyFrom_device_to_device_witness :
  holder_ on_device_0 = Some device_buffer
  /\ place_ device_buffer = GPUPlace 0
  /\ fst (CopyFrom true page_allocator float_t on_device_0 (GPUPlace 0)
            {| GetPlace := GPUPlace 1 |} fresh_2x3)
     = Throw CtxPlaceMismatch
  /\ fst (CopyFrom true page_allocator float_t on_device_0 (GPUPlace 0)
            {| GetPlace := CPUPlace |} fresh_2x3)
     = Throw CtxNotOnGPU.
Proof.
  assert (Hh : holder_ on_device_0 = Some device_buffer) by reflexivity.
  assert (Hp : place_ device_buffer = GPUPlace 0) by reflexivity.
  assert (Hd : exists p, data float_t on_device_0 = Ok p)
    by (eexists; reflexivity).
  assert (Hn : numel on_device_0 > 0) by reflexivity.
  split; [exact Hh|]. split; [exact Hp|]. split.
  - destruct (CopyFrom_device_to_device true page_allocator float_t on_device_0
                {| GetPlace := GPUPlace 1 |} fresh_2x3 device_buffer 0 0
                eq_refl Hh Hp) as (_ & H).
    destruct (H Hd Hn) as (_ & Hother & _).
    apply (Hother 1); [reflexivity | lia].
  - destruct (CopyFrom_device_to_device true page_allocator float_t on_device_0
                {| GetPlace := CPUPlace |} fresh_2x3 device_buffer 0 0
                eq_refl Hh Hp) as (_ & H).
    destruct (H Hd Hn) as (Hhost & _).
    apply Hhost. reflexivity.
Defined.

(** C3 as the claim states it fails: from device 0 to device 1 under a
    context on device 0, the context is not on the destination's device and
    the copy is issued all the same. *)
Lemma CopyFrom_to_another_device :
  (exists h, holder_ on_device_0 = Some h
             /\ is_gpu_place (place_ h) = true
             /\ place_ h = GetPlace {| GetPlace := GPUPlace 0 |})
  /\ is_gpu_place (GPUPlace 1) = true
  /\ GetPlace {| GetPlace := GPUPlace 0 |} <> GPUPlace 1
  /\ exists s',
       CopyFrom true page_allocator float_t on_device_0 (GPUPlace 1)
         {| GetPlace := GPUPlace 0 |} fresh_2x3 = (Ok tt, s')
       /\ length (copies (world s')) = 1%nat.
Proof.
  split; [exists device_buffer; repeat split|].
  split; [reflexivity|]. split; [discriminate|].
  eexists. split; [lazy; reflexivity | reflexivity].
Qed.

(** * More of the header: how the operations compose *)

Lemma add_wrap_r (x y : Z) : U64.add x (U64.wrap y) = U64.add x y.
Proof.
  unfold U64.add, U64.wrap. now rewrite Zplus_mod_idemp_r.
Qed.

Lemma mul_wrap_l (x y : Z) : U64.mul (U64.wrap x) y = U64.mul x y.
Proof.
  unfold U64.mul, U64.wrap. now rewrite Zmult_mod_idemp_l.
Qed.

Lemma mul_wrap_r (x y : Z) : U64.mul x (U64.wrap y) = U64.mul x y.
Proof.
  unfold U64.mul, U64.wrap. now rewrite Zmult_mod_idemp_r.
Qed.

Lemma add_zero_of_mul (n sz : Z) : U64.add (U64.mul n sz) 0 = U64.mul n sz.
Proof. unfold U64.add. rewrite Z.add_0_r. apply wrap_mul. Qed.

Lemma product_nonneg (d : DDim) :
  Forall (fun x => 0 <= x) d -> 0 <= product d.
Proof.
  induction 1 as [|x r Hx _ IH]; simpl; [lia | nia].
Qed.

Section Composition.

Variable PADDLE_WITH_CUDA : bool.
Variable memory_Alloc : Place -> Z -> nat -> Z.

(** The four ways through [mutable_data]. *)
Lemma mutable_data_cases (T : PodType) (place : Place) (s : St) :
  (numel (this s) <= 0
   /\ mutable_data PADDLE_WITH_CUDA memory_Alloc T place s
      = (Throw NumelNotPositive, s))
  \/ (numel (this s) > 0
      /\ exists h, holder_ (this s) = Some h
                   /\ place_ h = place
                   /\ size_ h >= U64.add (U64.mul (numel (this s)) (sizeof T))
                                         (offset_ (this s))
                   /\ mutable_data PADDLE_WITH_CUDA memory_Alloc T place s
                      = (Ok (U64.add (ptr_ h) (offset_ (this s))), s))
  \/ (numel (this s) > 0
      /\ ~ reusable T place (this s)
      /\ supported PADDLE_WITH_CUDA place = true
      /\ exists h, serial_ h = length (allocated (world s))
                   /\ place_ h = place
                   /\ size_ h = U64.mul (numel (this s)) (sizeof T)
                   /\ mutable_data PADDLE_WITH_CUDA memory_Alloc T place s
                      = (Ok (U64.add (ptr_ h) 0),
                         {| this := {| holder_ := Some h;
                                       dims_ := dims_ (this s);
                                       offset_ := 0 |};
                            world := {| allocated := h :: allocated (world s);
                                        copies := copies (world s) |} |}))
  \/ (numel (this s) > 0
      /\ ~ reusable T place (this s)
      /\ supported PADDLE_WITH_CUDA place = false
      /\ mutable_data PADDLE_WITH_CUDA memory_Alloc T place s
         = (Throw GPUPlaceNotSupported, s)).
Proof.
  destruct (Z_le_gt_dec (numel (this s)) 0) as [Hn | Hn].
  - left. split; [exact Hn|]. now apply mutable_data_numel_check.
  - right.
    destruct (reusable_dec T place (this s)) as [(h & Hh & Hp & Hs) | Hr].
    + left. split; [exact Hn|]. exists h. repeat split; try assumption.
      now apply mutable_data_on_reuse.
    + right. destruct (supported PADDLE_WITH_CUDA place) eqn:Hsup.
      * left. repeat split; try assumption.
        pose proof (mutable_data_on_allocation PADDLE_WITH_CUDA memory_Alloc
                      T place s Hn Hr Hsup) as E.
        cbv zeta in E. eexists. repeat split; [..|exact E]; reflexivity.
      * right. repeat split; try assumption.
        now apply mutable_data_on_unsupported.
Qed.

Lemma mutable_data_leaves_readable (T : PodType) (place : Place) (s s' : St)
    (p : Z) :
  mutable_data PADDLE_WITH_CUDA memory_Alloc T place s = (Ok p, s') ->
  data T (this s') = Ok p.
Proof.
  intros E.
  destruct (mutable_data_cases T place s)
    as [(_ & E') | [(_ & h & Hh & Hp & Hs & E')
       | [(_ & _ & _ & h & _ & _ & Hsz & E') | (_ & _ & _ & E')]]];
    rewrite E' in E; try discriminate E.
  - injection E as <- <-. apply data_after_check; [exact Hh|].
    apply check_memory_size_passes. eauto.
  - injection E as <- <-. cbn [this].
    refine (data_after_check T (Build_Tensor (Some h) (dims_ (this s)) 0) h
              eq_refl _).
    apply check_memory_size_passes. exists h. split; [reflexivity|].
    cbn [offset_].
    change (numel (Build_Tensor (Some h) (dims_ (this s)) 0))
      with (numel (this s)).
    rewrite add_zero_of_mul, Hsz. lia.
Qed.

(** X1.  The pointer [mutable_data<T>(place)] returns is the pointer
    [data<T>()] returns afterwards: whichever way the call went, the tensor
    it leaves passes the check of [data<T>()]. *)
Theorem mutable_data_then_data (T : PodType) (place : Place) (s s' : St)
    (p : Z) :
  mutable_data PADDLE_WITH_CUDA memory_Alloc T place s = (Ok p, s') ->
  data T (this s') = Ok p.
Proof. apply mutable_data_leaves_readable. Qed.

(** X2.  [mutable_data<T>(place)] is idempotent: right after a call that
    returned, the same call returns the same pointer and changes nothing;
    in particular it does not allocate again. *)
Theorem mutable_data_twice_same_pointer (T : PodType) (place : Place)
    (s s' : St) (p : Z) :
  mutable_data PADDLE_WITH_CUDA memory_Alloc T place s = (Ok p, s') ->
  mutable_data PADDLE_WITH_CUDA memory_Alloc T place s' = (Ok p, s').
Proof.
  intros E.
  destruct (mutable_data_cases T place s)
    as [(_ & E') | [(Hn & h & Hh & Hp & Hs & E')
       | [(Hn & _ & _ & h & _ & Hpl & Hsz & E') | (_ & _ & _ & E')]]];
    rewrite E' in E; try discriminate E.
  - injection E as <- <-. exact E'.
  - injection E as <- <-.
    match goal with
    | |- mutable_data _ _ _ _ ?s1 = _ =>
        refine (mutable_data_on_reuse PADDLE_WITH_CUDA memory_Alloc T place
                  s1 h Hn eq_refl Hpl _)
    end.
    cbn [this offset_].
    change (numel (Build_Tensor (Some h) (dims_ (this s)) 0))
      with (numel (this s)).
    rewrite add_zero_of_mul, Hsz. lia.
Qed.

Lemma mutable_data_frame (T : PodType) (place : Place) (s s' : St)
    (r : Res Z) :
  mutable_data PADDLE_WITH_CUDA memory_Alloc T place s = (r, s') ->
  dims_ (this s') = dims_ (this s)
  /\ copies (world s') = copies (world s)
  /\ (allocated (world s') = allocated (world s)
      \/ exists h, allocated (world s') = h :: allocated (world s)
                   /\ holder_ (this s') = Some h)
  /\ (forall e, r = Throw e -> s' = s)
  /\ (forall p, r = Ok p ->
        exists h, holder_ (this s') = Some h /\ place_ h = place).
Proof.
  intros E.
  destruct (mutable_data_cases T place s)
    as [(_ & E') | [(_ & h & Hh & Hp & Hs & E')
       | [(_ & _ & _ & h & _ & Hpl & _ & E') | (_ & _ & _ & E')]]];
    rewrite E' in E; injection E as <- <-;
    (split; [reflexivity|]); (split; [reflexivity|]).
  - split; [now left|]. split; [reflexivity|]. intros p H. discriminate H.
  - split; [now left|]. split; [intros e H; discriminate H|].
    intros p _. exists h. auto.
  - split; [right; exists h; split; reflexivity|].
    split; [intros e H; discriminate H|].
    intros p _. exists h. auto.
  - split; [now left|]. split; [reflexivity|]. intros p H. discriminate H.
Qed.

(** X3.  What [mutable_data<T>(place)] can and cannot change.  It never
    touches the shape and never calls [memory::Copy]; it allocates at most
    one placeholder; when it throws, the whole state is as before; when it
    returns, the holder is there and lives in [place]. *)
Theorem mutable_data_effects (T : PodType) (place : Place) (s s' : St)
    (r : Res Z) :
  mutable_data PADDLE_WITH_CUDA memory_Alloc T place s = (r, s') ->
  dims_ (this s') = dims_ (this s)
  /\ copies (world s') = copies (world s)
  /\ (allocated (world s') = allocated (world s)
      \/ exists h, allocated (world s') = h :: allocated (world s)
                   /\ holder_ (this s') = Some h)
  /\ (forall e, r = Throw e -> s' = s)
  /\ (forall p, r = Ok p ->
        exists h, holder_ (this s') = Some h /\ place_ h = place).
Proof. apply mutable_data_frame. Qed.

(** X4.  [mutable_data<T>(dims, place)] resizes before it checks: with a
    shape whose [numel()] (the product as an [int64_t]) is not positive it
    throws, nothing is allocated, and the tensor keeps the new shape (with
    the holder and offset it had). *)
Theorem mutable_data_dims_throws_resized (T : PodType) (d : DDim)
    (place : Place) (s : St) :
  U64.to_int64 (product d) <= 0 ->
  mutable_data_dims PADDLE_WITH_CUDA memory_Alloc T d place s
  = (Throw NumelNotPositive,
     {| this := {| holder_ := holder_ (this s); dims_ := d;
                   offset_ := offset_ (this s) |};
        world := world s |}).
Proof.
  intros Hd. rewrite mutable_data_dims_resizes_first.
  now apply mutable_data_numel_check.
Qed.

(** X15.  The buffer [mutable_data<T>] allocates is sized for [T]: reading
    it as a type no larger than [T] passes the check of [data], and reading
    it as a larger type fails with the out-of-bound error (the "data-type
    mismatches" case of its message). *)
Theorem data_as_another_type (T T' : PodType) (place : Place) (s s' : St)
    (p : Z) :
  ~ reusable T place (this s) ->
  mutable_data PADDLE_WITH_CUDA memory_Alloc T place s = (Ok p, s') ->
  numel (this s) * sizeof T < U64.modulus ->
  numel (this s) * sizeof T' < U64.modulus ->
  (sizeof T' <= sizeof T -> data T' (this s') = Ok p)
  /\ (sizeof T < sizeof T' -> data T' (this s') = Throw DimsOutOfBound).
Proof.
  intros Hr E HT HT'.
  destruct (mutable_data_cases T place s)
    as [(_ & E') | [(_ & h & Hh & Hp & Hs & E')
       | [(Hn & _ & _ & h & _ & Hpl & Hsz & E') | (_ & _ & _ & E')]]];
    rewrite E' in E; try discriminate E.
  - exfalso. apply Hr. exists h. auto.
  - injection E as <- <-. cbn [this].
    assert (H1 : 1 <= sizeof T) by (unfold sizeof; lia).
    assert (H1' : 1 <= sizeof T') by (unfold sizeof; lia).
    assert (Hneed : U64.add (U64.mul (numel (this s)) (sizeof T')) 0
                    = numel (this s) * sizeof T').
    { rewrite add_zero_of_mul. apply mul_exact. nia. }
    assert (Hhave : size_ h = numel (this s) * sizeof T).
    { rewrite Hsz. apply mul_exact. nia. }
    split; intros Hcmp.
    + refine (data_after_check T' (Build_Tensor (Some h) (dims_ (this s)) 0) h
                eq_refl _).
      apply check_memory_size_passes. exists h. split; [reflexivity|].
      cbn [offset_].
      change (numel (Build_Tensor (Some h) (dims_ (this s)) 0))
        with (numel (this s)).
      rewrite Hneed, Hhave. nia.
    + apply data_fails_with_check.
      unfold check_memory_size, enforceR. cbn [holder_ offset_].
      change (numel (Build_Tensor (Some h) (dims_ (this s)) 0))
        with (numel (this s)).
      rewrite Hneed, Hhave. rewrite geb_false by nia. reflexivity.
Qed.

End Composition.

(** ** More on [Slice] *)

Lemma Slice_returns_inv (T : PodType) (begin_idx end_idx : Z) (t r : Tensor) :
  Slice T begin_idx end_idx t = Ok r ->
  check_memory_size T t = Ok tt
  /\ exists d0, leading (dims_ t) = Some d0
                /\ 0 <= begin_idx /\ end_idx <= d0 /\ begin_idx < end_idx.
Proof.
  unfold Slice, dims0.
  destruct (check_memory_size T t) as [[]|]; [|discriminate].
  cbn [bindR]. unfold enforceR.
  destruct (begin_idx >=? 0) eqn:Hb; [|discriminate]. cbn [bindR].
  destruct (leading (dims_ t)) as [d0|]; [|discriminate]. cbn [bindR].
  destruct (end_idx <=? d0) eqn:He; [|discriminate]. cbn [bindR].
  destruct (begin_idx <? end_idx) eqn:Hlt; [|discriminate]. cbn [bindR].
  intros _. split; [reflexivity|]. exists d0.
  rewrite Z.geb_leb in Hb. apply Z.leb_le in Hb, He. apply Z.ltb_lt in Hlt.
  auto.
Qed.

Lemma leading_cons (d : DDim) (d0 : Z) :
  leading d = Some d0 -> d = d0 :: tl d.
Proof.
  destruct d as [|x r]; [discriminate|]. intros H. injection H as ->.
  reflexivity.
Qed.

Lemma product_leading (d : DDim) (d0 : Z) :
  leading d = Some d0 -> product d = d0 * product (tl d).
Proof.
  destruct d as [|x r]; [discriminate|]. intros H. injection H as ->.
  reflexivity.
Qed.

Lemma product_set_leading (d : DDim) (d0 v : Z) :
  leading d = Some d0 -> product (set_leading d v) = v * product (tl d).
Proof.
  destruct d as [|x r]; [discriminate|]. reflexivity.
Qed.

(** [begin * base * sizeof(T)] in [size_t], with the wraps collected. *)
Lemma slice_step_wrap (b R sz : Z) :
  U64.mul (U64.mul b (U64.wrap R)) sz = U64.wrap (b * R * sz).
Proof.
  rewrite mul_wrap_r. change (U64.mul b R) with (U64.wrap (b * R)).
  now rewrite mul_wrap_l.
Qed.

(** X5.  [Slice] returns exactly when the tensor passes the check of
    [data<T>()], has a leading extent, and [0 <= begin < end <= dims_[0]];
    in every other case it throws. *)
Theorem Slice_returns_iff (T : PodType) (begin_idx end_idx : Z) (t : Tensor) :
  (exists r, Slice T begin_idx end_idx t = Ok r)
  <-> ((exists p, data T t = Ok p)
       /\ exists d0, leading (dims_ t) = Some d0
                     /\ 0 <= begin_idx /\ end_idx <= d0
                     /\ begin_idx < end_idx).
Proof.
  split.
  - intros (r & Hr). apply Slice_returns_inv in Hr. destruct Hr as (Hc & Hd).
    split; [now apply data_passes_check | exact Hd].
  - intros (Hp & d0 & Hd & Hb & He & Hlt). apply data_passes_check in Hp.
    rewrite (Slice_checks_pass T t begin_idx end_idx d0) by assumption.
    destruct (d0 =? 1); eexists; reflexivity.
Qed.

Lemma Slice_fits (T : PodType) (begin_idx end_idx : Z)
    (t r : Tensor) (h : Placeholder) :
  Slice T begin_idx end_idx t = Ok r ->
  holder_ t = Some h ->
  Forall (fun x => 0 <= x) (dims_ t) ->
  product (dims_ t) < 2 ^ 63 ->
  0 <= offset_ t ->
  numel t * sizeof T + offset_ t <= size_ h ->
  size_ h < U64.modulus ->
  holder_ r = Some h
  /\ (0 <= numel r /\ (numel t > 0 -> numel r > 0))
  /\ offset_ t <= offset_ r
  /\ numel r * sizeof T + offset_ r <= size_ h
  /\ exists p, data T r = Ok p.
Proof.
  intros HS Hh Hnn Hint Ho Hfit Hsize.
  destruct (Slice_returns_inv _ _ _ _ _ HS)
    as (Hc & d0 & Hd & Hb & He & Hlt).
  rewrite (Slice_checks_pass T t begin_idx end_idx d0) in HS by assumption.
  assert (Hsz : 1 <= sizeof T) by (unfold sizeof; lia).
  pose proof (product_nonneg _ Hnn) as Hprod.
  assert (Hnt : numel t = product (dims_ t)) by (apply numel_exact; lia).
  assert (Hnum : 0 <= numel t) by lia.
  destruct (d0 =? 1) eqn:E1.
  - injection HS as <-. split; [exact Hh|]. split; [split; [exact Hnum | auto]|].
    split; [lia|]. split; [exact Hfit|]. now apply data_passes_check.
  - apply Z.eqb_neq in E1. injection HS as <-.
    pose proof (leading_cons _ _ Hd) as Hdims.
    set (R := product (tl (dims_ t))).
    assert (HR : 0 <= R).
    { apply product_nonneg. rewrite Hdims in Hnn. now inversion Hnn. }
    assert (Hnumel : numel t = d0 * R).
    { rewrite Hnt. rewrite Hdims at 1. reflexivity. }
    assert (Hq : Z.quot (numel t) d0 = R).
    { rewrite Hnumel, Z.mul_comm. apply Z.quot_mul. lia. }
    assert (HP : 0 <= R * sizeof T) by nia.
    assert (H1 : begin_idx * (R * sizeof T) <= end_idx * (R * sizeof T)) by nia.
    assert (H2 : end_idx * (R * sizeof T) <= d0 * (R * sizeof T)) by nia.
    assert (H3 : 0 <= begin_idx * (R * sizeof T)) by nia.
    assert (H4 : d0 * (R * sizeof T) + offset_ t < U64.modulus) by nia.
    set (r := {| holder_ := holder_ t;
                 dims_ := set_leading (dims_ t) (end_idx - begin_idx);
                 offset_ := U64.add (offset_ t)
                   (U64.mul (U64.mul begin_idx
                      (U64.wrap (Z.quot (numel t) d0))) (sizeof T)) |}).
    assert (Hoff : offset_ r = offset_ t + begin_idx * (R * sizeof T)).
    { subst r. cbn [offset_]. rewrite Hq, slice_step_wrap, add_wrap_r.
      rewrite add_exact by nia. ring. }
    assert (Hnr : numel r = (end_idx - begin_idx) * R).
    { subst r. unfold numel. cbn [dims_]. rewrite Hdims.
      cbn [set_leading product]. fold R. apply to_int64_exact. nia. }
    assert (Hhr : holder_ r = Some h) by exact Hh.
    clearbody r. rewrite Hnr, Hoff.
    split; [exact Hhr|]. split; [split; [nia | intros Hpos; nia]|].
    split; [lia|]. split; [nia|].
    apply data_passes_check, check_memory_size_passes.
    exists h. split; [exact Hhr|].
    rewrite Hnr, Hoff.
    rewrite mul_exact by nia. rewrite add_exact by nia. nia.
Qed.

(** X6.  A slice stays inside the buffer.  When the extents and the offset
    are non-negative, the product of the extents fits [int64_t] (so
    [numel()] is that product) and the tensor fits its holder
    ([numel() * sizeof(T) + offset_ <= size], no wrap-around), every slice
    [Slice] returns fits the same holder, so [data<T>()] accepts it. *)
Theorem Slice_fits_holder (T : PodType) (begin_idx end_idx : Z)
    (t r : Tensor) (h : Placeholder) :
  Slice T begin_idx end_idx t = Ok r ->
  holder_ t = Some h ->
  Forall (fun x => 0 <= x) (dims_ t) ->
  product (dims_ t) < 2 ^ 63 ->
  0 <= offset_ t ->
  numel t * sizeof T + offset_ t <= size_ h ->
  size_ h < U64.modulus ->
  holder_ r = Some h
  /\ 0 <= numel r
  /\ offset_ t <= offset_ r
  /\ numel r * sizeof T + offset_ r <= size_ h
  /\ exists p, data T r = Ok p.
Proof.
  intros HS Hh Hnn Hint Ho Hfit Hsize.
  destruct (Slice_fits T begin_idx end_idx t r h HS Hh Hnn Hint Ho Hfit Hsize)
    as (H1 & (H2 & _) & H3 & H4 & H5).
  auto.
Qed.

(** X17.  Writing through a slice does not reallocate.  Under the
    conditions of X6, on a tensor with elements, [mutable_data<T>] asked for
    the holder's place on the slice returns the pointer [data<T>()] gives on
    the slice and leaves the slice and the world as they are, in every
    build. *)
Theorem Slice_then_mutable_data (cuda : bool)
    (memory_Alloc : Place -> Z -> nat -> Z) (T : PodType)
    (begin_idx end_idx : Z) (t r : Tensor) (h : Placeholder) (w : World) :
  Slice T begin_idx end_idx t = Ok r ->
  holder_ t = Some h ->
  Forall (fun x => 0 <= x) (dims_ t) ->
  product (dims_ t) < 2 ^ 63 ->
  0 <= offset_ t ->
  numel t * sizeof T + offset_ t <= size_ h ->
  size_ h < U64.modulus ->
  numel t > 0 ->
  exists p,
    data T r = Ok p
    /\ mutable_data cuda memory_Alloc T (place_ h) {| this := r; world := w |}
       = (Ok p, {| this := r; world := w |}).
Proof.
  intros HS Hh Hnn Hint Ho Hfit Hsize Hpos.
  destruct (Slice_fits T begin_idx end_idx t r h HS Hh Hnn Hint Ho Hfit Hsize)
    as (Hhr & (_ & Hnr) & _ & _ & (p & Hp)).
  exists p. split; [exact Hp|].
  assert (Hc : check_memory_size T r = Ok tt)
    by (apply data_passes_check; eauto).
  destruct (proj1 (check_memory_size_passes T r) Hc) as (h' & Hh' & Hs).
  assert (h' = h) by congruence. subst h'.
  rewrite (data_after_check T r h Hhr Hc) in Hp. injection Hp as <-.
  refine (mutable_data_on_reuse cuda memory_Alloc T (place_ h)
            {| this := r; world := w |} h (Hnr Hpos) Hhr eq_refl Hs).
Qed.


(** X8.  Slices compose, for a tensor whose product of extents fits
    [int64_t] (so that [numel()] is that product): a slice [begin2, end2) of
    a slice [begin1, end1) of the tensor is the slice
    [begin1 + begin2, begin1 + end2) of the tensor, with the same holder,
    shape and offset, whenever the two calls return.  This covers the
    one-row case, where [Slice] gives its receiver back. *)
Theorem Slice_of_Slice (T : PodType) (b1 e1 b2 e2 : Z) (t t1 t2 : Tensor) :
  - 2 ^ 63 <= product (dims_ t) < 2 ^ 63 ->
  Slice T b1 e1 t = Ok t1 ->
  Slice T b2 e2 t1 = Ok t2 ->
  Slice T (b1 + b2) (b1 + e2) t = Ok t2.
Proof.
  intros Hint H1 H2.
  destruct (Slice_returns_inv _ _ _ _ _ H1) as (Hc & d0 & Hd & Hb & He & Hlt).
  destruct (Slice_returns_inv _ _ _ _ _ H2)
    as (Hc1 & d1 & Hd1 & Hb1 & He1 & Hlt1).
  rewrite (Slice_checks_pass T t b1 e1 d0) in H1 by assumption.
  rewrite (Slice_checks_pass T t1 b2 e2 d1) in H2 by assumption.
  destruct (d0 =? 1) eqn:E0.
  - (* one row: the first slice is the tensor itself *)
    apply Z.eqb_eq in E0. injection H1 as <-.
    assert (d1 = d0) by congruence. subst d1 d0.
    rewrite Z.eqb_refl in H2. injection H2 as <-.
    rewrite (Slice_checks_pass T t (b1 + b2) (b1 + e2) 1)
      by (assumption || lia).
    reflexivity.
  - apply Z.eqb_neq in E0. injection H1 as <-.
    pose proof (leading_cons _ _ Hd) as Hdims.
    assert (Hd1' : d1 = e1 - b1).
    { cbn [dims_] in Hd1. rewrite Hdims in Hd1. cbn in Hd1. congruence. }
    rewrite (Slice_checks_pass T t (b1 + b2) (b1 + e2) d0)
      by (assumption || lia).
    replace (d0 =? 1) with false by (symmetry; now apply Z.eqb_neq).
    destruct (d1 =? 1) eqn:E1.
    + (* the first slice has one row: the second is the first *)
      apply Z.eqb_eq in E1. injection H2 as <-.
      assert (b2 = 0) by lia. assert (e2 = 1) by lia. subst b2 e2.
      do 2 f_equal; [f_equal; lia | do 3 f_equal; lia].
    + injection H2 as <-. cbn [holder_ dims_ offset_].
      set (R := product (tl (dims_ t))).
      assert (HdR : product (dims_ t) = d0 * R)
        by (now apply product_leading).
      assert (Hq : Z.quot (numel t) d0 = R).
      { rewrite (numel_exact t Hint), HdR, Z.mul_comm.
        apply Z.quot_mul. lia. }
      assert (Hq1 : Z.quot (numel {| holder_ := holder_ t;
                                     dims_ := set_leading (dims_ t) (e1 - b1);
                                     offset_ := U64.add (offset_ t)
                                       (U64.mul (U64.mul b1
                                          (U64.wrap (Z.quot (numel t) d0)))
                                          (sizeof T)) |}) d1 = R).
      { unfold numel. cbn [dims_].
        rewrite (product_set_leading _ d0 (e1 - b1) Hd). fold R.
        rewrite to_int64_exact by (rewrite HdR in Hint; nia).
        rewrite Hd1', Z.mul_comm. apply Z.quot_mul. lia. }
      rewrite Hq1, Hq. f_equal. f_equal.
      * rewrite Hdims. cbn [set_leading]. f_equal. lia.
      * rewrite !slice_step_wrap, !add_wrap_r.
        change (U64.add (offset_ t) (b1 * R * sizeof T))
          with (U64.wrap (offset_ t + b1 * R * sizeof T)).
        rewrite add_wrap_l. unfold U64.add. f_equal. ring.
Qed.

(** ** More on [CopyFrom], [CopyFromVector] and [ReshapeToMatrix] *)

Section Copying.

Variable PADDLE_WITH_CUDA : bool.
Variable memory_Alloc : Place -> Z -> nat -> Z.

(** [CopyFrom] once [src] has passed its check: the receiver takes the
    shape, the destination is prepared, then the places decide. *)
Lemma CopyFrom_after_check (T : PodType) (src : Tensor) (dst_place : Place)
    (ctx : DeviceContext) (s : St) (h : Placeholder) :
  holder_ src = Some h ->
  check_memory_size T src = Ok tt ->
  CopyFrom PADDLE_WITH_CUDA memory_Alloc T src dst_place ctx s =
  match mutable_data PADDLE_WITH_CUDA memory_Alloc T dst_place
          {| this := {| holder_ := holder_ (this s); dims_ := dims src;
                        offset_ := offset_ (this s) |};
             world := world s |} with
  | (Ok dst_ptr, s') =>
      let src_place := place_ h in
      let src_ptr := U64.add (ptr_ h) (offset_ src) in
      let size := U64.mul (numel src) (sizeof T) in
      (if is_cpu_place src_place && is_cpu_place dst_place then
         memory_Copy dst_place dst_ptr src_place src_ptr size None
       else if PADDLE_WITH_CUDA then
         if is_gpu_place src_place && is_cpu_place dst_place then
           enforce (is_gpu_place (GetPlace ctx)) CtxNotOnGPU ;;
           enforce (Place_eqb src_place (GetPlace ctx)) CtxPlaceMismatch ;;
           memory_Copy dst_place dst_ptr src_place src_ptr size (Some ctx)
         else if is_cpu_place src_place && is_gpu_place dst_place then
           enforce (is_gpu_place (GetPlace ctx)) CtxNotOnGPU ;;
           enforce (Place_eqb dst_place (GetPlace ctx)) CtxPlaceMismatch ;;
           memory_Copy dst_place dst_ptr src_place src_ptr size (Some ctx)
         else if is_gpu_place src_place && is_gpu_place dst_place then
           enforce (is_gpu_place (GetPlace ctx)) CtxNotOnGPU ;;
           enforce (Place_eqb src_place (GetPlace ctx)) CtxPlaceMismatch ;;
           memory_Copy dst_place dst_ptr src_place src_ptr size (Some ctx)
         else ret tt
       else ret tt) s'
  | (Throw e, s') => (Throw e, s')
  end.
Proof.
  intros Hh Hc.
  unfold CopyFrom, bind at 1, const_call at 1. rewrite Hc.
  unfold bind at 1, Resize, bind at 1, set_dims, bind at 1, get_this at 1,
    put_this, get_this at 1.
  unfold bind at 1, const_call at 1. rewrite Hh. simpl deref.
  unfold bind at 1, const_call at 1.
  rewrite (data_after_check T src h Hh Hc).
  unfold bind at 1.
  destruct (mutable_data _ _ _ _ _) as [[dst_ptr | e] s']; reflexivity.
Qed.

Lemma data_gives_holder (T : PodType) (t : Tensor) (p : Z) :
  data T t = Ok p ->
  check_memory_size T t = Ok tt
  /\ exists h, holder_ t = Some h /\ p = U64.add (ptr_ h) (offset_ t).
Proof.
  intros Hp.
  assert (Hc : check_memory_size T t = Ok tt)
    by (apply data_passes_check; eauto).
  split; [exact Hc|].
  destruct (proj1 (check_memory_size_passes T t) Hc) as (h & Hh & _).
  exists h. split; [exact Hh|].
  rewrite (data_after_check T t h Hh Hc) in Hp. now injection Hp.
Qed.

(** X12.  The two ways [CopyFrom] fails before it looks at the places.  A
    source that fails the check of [data<T>()] makes the call throw that
    error with the state untouched.  A source that passes but has no
    elements makes it throw the error of [mutable_data]: nothing is
    allocated or copied, and the receiver has already taken the source's
    shape. *)
Theorem CopyFrom_early_failures (T : PodType) (src : Tensor)
    (dst_place : Place) (ctx : DeviceContext) (s : St) :
  (forall e, data T src = Throw e ->
     CopyFrom PADDLE_WITH_CUDA memory_Alloc T src dst_place ctx s
     = (Throw e, s))
  /\ (forall p, data T src = Ok p -> numel src <= 0 ->
        CopyFrom PADDLE_WITH_CUDA memory_Alloc T src dst_place ctx s
        = (Throw NumelNotPositive,
           {| this := {| holder_ := holder_ (this s); dims_ := dims src;
                         offset_ := offset_ (this s) |};
              world := world s |})).
Proof.
  split.
  - intros e He. apply data_fails_with_check in He.
    unfold CopyFrom, bind, const_call. now rewrite He.
  - intros p Hp Hn. destruct (data_gives_holder _ _ _ Hp) as (Hc & h & Hh & _).
    rewrite (CopyFrom_after_check T src dst_place ctx s h Hh Hc).
    rewrite mutable_data_numel_check by exact Hn. reflexivity.
Qed.

(** X10.  Host to host.  When the source is on the host, passes the check
    of [data<T>()] and has elements, [CopyFrom] to the host returns in every
    build and for every context: the receiver has the source's shape, and
    one synchronous [memory::Copy] of [numel() * sizeof(T)] bytes is issued
    from the source's data pointer to the receiver's. *)
Theorem CopyFrom_host_to_host (T : PodType) (src : Tensor)
    (ctx : DeviceContext) (s : St) (h : Placeholder) (src_ptr : Z) :
  holder_ src = Some h ->
  place_ h = CPUPlace ->
  data T src = Ok src_ptr ->
  numel src > 0 ->
  exists s' dst_ptr,
    CopyFrom PADDLE_WITH_CUDA memory_Alloc T src CPUPlace ctx s = (Ok tt, s')
    /\ dims_ (this s') = dims src
    /\ data T (this s') = Ok dst_ptr
    /\ copies (world s')
       = {| copy_dst_place := CPUPlace; copy_dst := dst_ptr;
            copy_src_place := CPUPlace; copy_src := src_ptr;
            copy_num := U64.mul (numel src) (sizeof T);
            copy_stream := None |} :: copies (world s).
Proof.
  intros Hh Hp Hd Hn.
  destruct (data_gives_holder _ _ _ Hd) as (Hc & h' & Hh' & ->).
  assert (h' = h) by congruence. subst h'.
  rewrite (CopyFrom_after_check T src CPUPlace ctx s h Hh Hc).
  set (s0 := {| this := {| holder_ := holder_ (this s); dims_ := dims src;
                           offset_ := offset_ (this s) |};
                world := world s |}).
  destruct (mutable_data_succeeds PADDLE_WITH_CUDA memory_Alloc T CPUPlace s0)
    as (dp & s1 & E); [exact Hn | reflexivity |].
  rewrite E. rewrite Hp. cbn [is_cpu_place andb].
  pose proof (mutable_data_leaves_readable _ _ _ _ _ _ _ E) as Hread.
  destruct (mutable_data_frame _ _ _ _ _ _ _ E) as (Hdims & Hcp & _).
  exists (snd (memory_Copy CPUPlace dp CPUPlace
                 (U64.add (ptr_ h) (offset_ src))
                 (U64.mul (numel src) (sizeof T)) None s1)), dp.
  unfold memory_Copy. cbn [snd this world copies].
  split; [reflexivity|]. split; [exact Hdims|]. split; [exact Hread|].
  now rewrite Hcp.
Qed.

(** X11.  One device endpoint, in a build with [PADDLE_WITH_CUDA].  When
    exactly one of the source's place and [dst_place] is a device, the
    context has to be on that device: then one copy is issued on the
    context's stream; with any other context the call throws and nothing is
    copied. *)
Theorem CopyFrom_one_device_endpoint (T : PodType) (src : Tensor)
    (dst_place : Place) (ctx : DeviceContext) (s : St) (h : Placeholder)
    (src_ptr : Z) :
  PADDLE_WITH_CUDA = true ->
  holder_ src = Some h ->
  data T src = Ok src_ptr ->
  numel src > 0 ->
  is_gpu_place (place_ h) = negb (is_gpu_place dst_place) ->
  let device := if is_gpu_place (place_ h) then place_ h else dst_place in
  let call := CopyFrom PADDLE_WITH_CUDA memory_Alloc T src dst_place ctx in
  (GetPlace ctx = device ->
     exists s' dst_ptr,
       call s = (Ok tt, s')
       /\ data T (this s') = Ok dst_ptr
       /\ copies (world s')
          = {| copy_dst_place := dst_place; copy_dst := dst_ptr;
               copy_src_place := place_ h; copy_src := src_ptr;
               copy_num := U64.mul (numel src) (sizeof T);
               copy_stream := Some ctx |} :: copies (world s))
  /\ (GetPlace ctx <> device ->
        exists e s',
          call s = (Throw e, s')
          /\ (e = CtxNotOnGPU \/ e = CtxPlaceMismatch)
          /\ copies (world s') = copies (world s)).
Proof.
  intros Hcuda Hh Hd Hn Hone device call.
  destruct (data_gives_holder _ _ _ Hd) as (Hc & h' & Hh' & ->).
  assert (h' = h) by congruence. subst h'.
  subst call. rewrite (CopyFrom_after_check T src dst_place ctx s h Hh Hc).
  set (s0 := {| this := {| holder_ := holder_ (this s); dims_ := dims src;
                           offset_ := offset_ (this s) |};
                world := world s |}).
  destruct (mutable_data_succeeds PADDLE_WITH_CUDA memory_Alloc T dst_place s0)
    as (dp & s1 & E);
    [exact Hn | unfold supported; rewrite Hcuda; apply orb_true_r |].
  rewrite E.
  pose proof (mutable_data_leaves_readable _ _ _ _ _ _ _ E) as Hread.
  destruct (mutable_data_frame _ _ _ _ _ _ _ E) as (_ & Hcp & _).
  cbn [this world copies] in Hcp.
  rewrite Hcuda. subst device.
  destruct (place_ h) as [|ds] eqn:Hp, dst_place as [|dd];
    cbn in Hone; try discriminate Hone; cbn [is_cpu_place is_gpu_place andb].
  - (* host to device *)
    split.
    + intros Hctx. rewrite Hctx.
      unfold bind, enforce, const_call, enforceR, memory_Copy.
      cbn [is_gpu_place Place_eqb]. rewrite Z.eqb_refl.
      eexists _, dp. split; [reflexivity|]. cbn [this world copies].
      split; [exact Hread|]. now rewrite Hcp.
    + intros Hctx. unfold bind, enforce, const_call, enforceR, memory_Copy.
      destruct (GetPlace ctx) as [|dc]; cbn [is_gpu_place Place_eqb].
      * eexists _, _. split; [reflexivity|]. split; [now left | exact Hcp].
      * destruct (dd =? dc) eqn:Hdc.
        -- apply Z.eqb_eq in Hdc. subst dc. contradiction.
        -- eexists _, _. split; [reflexivity|]. split; [now right | exact Hcp].
  - (* device to host *)
    split.
    + intros Hctx. rewrite Hctx.
      unfold bind, enforce, const_call, enforceR, memory_Copy.
      cbn [is_gpu_place Place_eqb]. rewrite Z.eqb_refl.
      eexists _, dp. split; [reflexivity|]. cbn [this world copies].
      split; [exact Hread|]. now rewrite Hcp.
    + intros Hctx. unfold bind, enforce, const_call, enforceR, memory_Copy.
      destruct (GetPlace ctx) as [|dc]; cbn [is_gpu_place Place_eqb].
      * eexists _, _. split; [reflexivity|]. split; [now left | exact Hcp].
      * destruct (ds =? dc) eqn:Hdc.
        -- apply Z.eqb_eq in Hdc. subst dc. contradiction.
        -- eexists _, _. split; [reflexivity|]. split; [now right | exact Hcp].
Qed.

(** Everything [CopyFrom] can have done when it is over. *)
Lemma CopyFrom_frame (T : PodType) (src : Tensor) (dst_place : Place)
    (ctx : DeviceContext) (s s' : St) (r : Res unit) :
  CopyFrom PADDLE_WITH_CUDA memory_Alloc T src dst_place ctx s = (r, s') ->
  (allocated (world s') = allocated (world s)
   \/ exists h', allocated (world s') = h' :: allocated (world s))
  /\ (copies (world s') = copies (world s)
      \/ exists c h sp dp,
           copies (world s') = c :: copies (world s)
           /\ r = Ok tt
           /\ holder_ src = Some h
           /\ data T src = Ok sp
           /\ data T (this s') = Ok dp
           /\ copy_dst_place c = dst_place /\ copy_dst c = dp
           /\ copy_src_place c = place_ h /\ copy_src c = sp
           /\ copy_num c = U64.mul (numel src) (sizeof T)
           /\ (copy_stream c = None
               /\ place_ h = CPUPlace /\ dst_place = CPUPlace
               \/ copy_stream c = Some ctx
                  /\ PADDLE_WITH_CUDA = true
                  /\ is_gpu_place (GetPlace ctx) = true))
  /\ (forall e, r = Throw e -> copies (world s') = copies (world s)).
Proof.
  intros E0.
  destruct (check_memory_size T src) as [[]|e] eqn:Hc.
  2:{ unfold CopyFrom, bind, const_call in E0. rewrite Hc in E0.
      injection E0 as <- <-. split; [now left|]. split; [now left|].
      reflexivity. }
  destruct (proj1 (check_memory_size_passes T src) Hc) as (h & Hh & _).
  pose proof (data_after_check T src h Hh Hc) as Hsp.
  rewrite (CopyFrom_after_check T src dst_place ctx s h Hh Hc) in E0.
  destruct (mutable_data _ _ _ _ _) as [[dp | e] s1] eqn:E;
    pose proof (mutable_data_frame _ _ _ _ _ _ _ E) as (_ & Hcp & Hal & _);
    cbn [this world copies allocated] in Hcp, Hal.
  2:{ injection E0 as <- <-. split.
      - destruct Hal as [Hal | (h' & Hal & _)]; [now left | right; eauto].
      - split; [now left|]. intros _ _. exact Hcp. }
  pose proof (mutable_data_leaves_readable _ _ _ _ _ _ _ E) as Hread.
  assert (Hal' : allocated (world s1) = allocated (world s)
                 \/ exists h', allocated (world s1) = h' :: allocated (world s))
    by (destruct Hal as [Hal | (h' & Hal & _)]; [now left | right; eauto]).
  cbv zeta in E0.
  unfold bind, enforce, const_call, enforceR, memory_Copy, ret in E0.
  destruct (place_ h) as [|ds] eqn:Hp, dst_place as [|dd],
    PADDLE_WITH_CUDA eqn:Hcuda, (GetPlace ctx) as [|dc] eqn:Hctx;
    cbn [is_cpu_place is_gpu_place andb Place_eqb] in E0;
    try (destruct (_ =? _) in E0);
    injection E0 as <- <-; cbn [this world copies allocated];
    (split; [exact Hal'|]);
    (split; [|intros e He; first [discriminate He | exact Hcp]]);
    first
      [ left; exact Hcp
      | right; eexists _, h, _, dp;
        split; [rewrite Hcp; reflexivity|];
        split; [reflexivity|];
        split; [exact Hh|];
        split; [exact Hsp|];
        split; [exact Hread|];
        cbn [copy_dst_place copy_dst copy_src_place copy_src copy_num
             copy_stream];
        rewrite ?Hp; repeat (split; [reflexivity|]);
        first [ left; repeat split; reflexivity
              | right; repeat split; reflexivity ] ].
Qed.

(** X13.  [CopyFrom] calls [memory::Copy] at most once, and only when it
    returns: a call that throws has copied nothing.  The copy it issues is
    of [numel() * sizeof(T)] bytes, from the pointer [data<T>()] gives on the
    source to the pointer it gives on the receiver afterwards, into
    [dst_place].  At most one placeholder is allocated. *)
Theorem CopyFrom_copies_at_most_once (T : PodType) (src : Tensor)
    (dst_place : Place) (ctx : DeviceContext) (s s' : St) (r : Res unit) :
  CopyFrom PADDLE_WITH_CUDA memory_Alloc T src dst_place ctx s = (r, s') ->
  (forall e, r = Throw e -> copies (world s') = copies (world s))
  /\ (copies (world s') = copies (world s)
      \/ exists c,
           copies (world s') = c :: copies (world s)
           /\ r = Ok tt
           /\ copy_num c = U64.mul (numel src) (sizeof T)
           /\ data T src = Ok (copy_src c)
           /\ data T (this s') = Ok (copy_dst c)
           /\ copy_dst_place c = dst_place)
  /\ (allocated (world s') = allocated (world s)
      \/ exists h, allocated (world s') = h :: allocated (world s)).
Proof.
  intros E. destruct (CopyFrom_frame _ _ _ _ _ _ _ E) as (Hal & Hcp & Hthrow).
  split; [exact Hthrow|]. split; [|exact Hal].
  destruct Hcp as [Hcp | (c & h & sp & dp & Hc & Hr & _ & Hsp & Hdp & Hdpl
                          & Hd & _ & Hs & Hn & _)].
  - now left.
  - right. exists c. subst sp dp. auto 10.
Qed.

(** X14.  [CopyFromVector] copies the vector as it is: on a tensor with
    elements, and a context whose place the build can allocate in, one copy
    of [src.size() * sizeof(T)] bytes is issued from the vector's data (on
    the host) to the receiver's data pointer in the context's place --
    synchronous to the host, on the context's stream to a device.  The shape
    is left alone and the vector's length is not compared with [numel()]. *)
Theorem CopyFromVector_copies_the_vector (T : PodType) (src_data src_size : Z)
    (ctx : DeviceContext) (s : St) :
  numel (this s) > 0 ->
  supported PADDLE_WITH_CUDA (GetPlace ctx) = true ->
  exists s' dst_ptr,
    CopyFromVector PADDLE_WITH_CUDA memory_Alloc T src_data src_size ctx s
    = (Ok tt, s')
    /\ dims_ (this s') = dims_ (this s)
    /\ data T (this s') = Ok dst_ptr
    /\ copies (world s')
       = {| copy_dst_place := GetPlace ctx; copy_dst := dst_ptr;
            copy_src_place := CPUPlace; copy_src := src_data;
            copy_num := U64.mul src_size (sizeof T);
            copy_stream := if is_cpu_place (GetPlace ctx) then None
                           else Some ctx |} :: copies (world s).
Proof.
  intros Hn Hsup.
  destruct (mutable_data_succeeds PADDLE_WITH_CUDA memory_Alloc T
              (GetPlace ctx) s Hn Hsup) as (dp & s1 & E).
  pose proof (mutable_data_leaves_readable _ _ _ _ _ _ _ E) as Hread.
  destruct (mutable_data_frame _ _ _ _ _ _ _ E) as (Hdims & Hcp & _).
  unfold CopyFromVector. cbv zeta. unfold bind. rewrite E.
  unfold supported in Hsup.
  destruct (GetPlace ctx) as [|d] eqn:Hctx;
    cbn [is_cpu_place is_gpu_place orb] in *.
  - unfold memory_Copy. eexists _, dp. split; [reflexivity|].
    cbn [this world copies]. rewrite Hcp. auto.
  - rewrite Hsup. unfold memory_Copy. eexists _, dp. split; [reflexivity|].
    cbn [this world copies]. rewrite Hcp. auto.
Qed.

End Copying.

(** X16.  In a build without [PADDLE_WITH_CUDA], the only copy [CopyFrom]
    ever issues is the synchronous one between two host places: no copy is
    given a stream and none has a device endpoint. *)
Theorem CopyFrom_without_cuda_copies_on_host
    (memory_Alloc : Place -> Z -> nat -> Z) (T : PodType) (src : Tensor)
    (dst_place : Place) (ctx : DeviceContext) (s s' : St) (r : Res unit)
    (c : CopyCall) :
  CopyFrom false memory_Alloc T src dst_place ctx s = (r, s') ->
  copies (world s') = c :: copies (world s) ->
  copy_stream c = None
  /\ copy_src_place c = CPUPlace
  /\ copy_dst_place c = CPUPlace.
Proof.
  intros E Hc.
  destruct (CopyFrom_frame _ _ _ _ _ _ _ _ _ E) as (_ & Hcp & _).
  destruct Hcp as [Hcp | (c' & h & sp & dp & Hc' & _ & _ & _ & _ & Hdpl
                          & _ & Hspl & _ & _ & Hst)].
  - rewrite Hcp in Hc. symmetry in Hc. now apply cons_neq_self in Hc.
  - rewrite Hc' in Hc. injection Hc as ->.
    destruct Hst as [(Hnone & Hp & Hd) | (_ & Hcuda & _)];
      [|discriminate Hcuda].
    rewrite Hspl, Hdpl, Hp. auto.
Qed.

(** X9.  The matrix view reads the same bytes: for a split point strictly
    inside the shape, [ReshapeToMatrix] returns exactly when [data<T>()]
    accepts the source, and then [data<T>()] on the result is the source's
    pointer; when the source is refused, the call throws the same error and
    the world is untouched. *)
Theorem ReshapeToMatrix_reads_the_same (T : PodType) (src : Tensor)
    (num_col_dims : Z) (w : World) :
  0 < num_col_dims < Z.of_nat (length (dims src)) ->
  (forall p, data T src = Ok p ->
     exists res, ReshapeToMatrix T src num_col_dims w = (Ok res, w)
                 /\ data T res = Ok p)
  /\ (forall e, data T src = Throw e ->
        ReshapeToMatrix T src num_col_dims w = (Throw e, w)).
Proof.
  intros _. split.
  - intros p Hp.
    assert (Hc : check_memory_size T src = Ok tt)
      by (apply data_passes_check; eauto).
    destruct (proj1 (check_memory_size_passes T src) Hc) as (h & Hh & Hs).
    rewrite (data_after_check T src h Hh Hc) in Hp. injection Hp as <-.
    exists {| holder_ := holder_ src;
              dims_ := flatten_to_2d (dims src) num_col_dims;
              offset_ := offset_ src |}.
    split.
    + unfold ReshapeToMatrix, on_object, ShareDataWith, Resize, set_dims,
        bind, const_call, put_this, get_this.
      rewrite Hc. destruct w. reflexivity.
    + refine (data_after_check T (Build_Tensor (holder_ src)
                (flatten_to_2d (dims src) num_col_dims) (offset_ src)) h Hh _).
      apply check_memory_size_passes. exists h. split; [exact Hh|].
      cbn [offset_]. unfold numel at 1, flatten_to_2d, dims. cbn [dims_ product].
      rewrite Z.mul_1_r, product_split. exact Hs.
  - intros e He. apply data_fails_with_check in He.
    unfold ReshapeToMatrix, on_object, ShareDataWith, bind, const_call.
    rewrite He. destruct w. reflexivity.
Qed.

(** ** The composition theorems at concrete tensors *)

Lemma mutable_data_then_data_witness :
  mutable_data false page_allocator float_t CPUPlace fresh_2x3
  = (Ok 4096, first_2x3)
  /\ data float_t (this first_2x3) = Ok 4096.
Proof.
  assert (E : mutable_data false page_allocator float_t CPUPlace fresh_2x3
              = (Ok 4096, first_2x3)) by reflexivity.
  split; [exact E|].
  exact (mutable_data_then_data false page_allocator float_t CPUPlace
           fresh_2x3 first_2x3 4096 E).
Defined.

Lemma mutable_data_twice_same_pointer_witness :
  mutable_data false page_allocator float_t CPUPlace fresh_2x3
  = (Ok 4096, first_2x3)
  /\ mutable_data false page_allocator float_t CPUPlace first_2x3
     = (Ok 4096, first_2x3).
Proof.
  assert (E : mutable_data false page_allocator float_t CPUPlace fresh_2x3
              = (Ok 4096, first_2x3)) by reflexivity.
  split; [exact E|].
  exact (mutable_data_twice_same_pointer false page_allocator float_t CPUPlace
           fresh_2x3 first_2x3 4096 E).
Defined.

Lemma mutable_data_effects_witness :
  mutable_data false page_allocator float_t CPUPlace fresh_2x3
  = (Ok 4096, first_2x3)
  /\ dims_ (this first_2x3) = dims_ (this fresh_2x3)
  /\ exists h, holder_ (this first_2x3) = Some h /\ place_ h = CPUPlace.
Proof.
  assert (E : mutable_data false page_allocator float_t CPUPlace fresh_2x3
              = (Ok 4096, first_2x3)) by reflexivity.
  split; [exact E|].
  destruct (mutable_data_effects false page_allocator float_t CPUPlace
              fresh_2x3 first_2x3 (Ok 4096) E) as (Hd & _ & _ & _ & Hh).
  split; [exact Hd|]. exact (Hh 4096 eq_refl).
Defined.

Lemma mutable_data_dims_throws_resized_witness :
  U64.to_int64 (product [3; 0; 2]) <= 0
  /\ mutable_data_dims true page_allocator float_t [3; 0; 2] CPUPlace fresh_2x3
     = (Throw NumelNotPositive, zero_extent).
Proof.
  assert (H : U64.to_int64 (product [3; 0; 2]) <= 0)
    by (vm_compute; discriminate).
  split; [exact H|].
  exact (mutable_data_dims_throws_resized true page_allocator float_t
           [3; 0; 2] CPUPlace fresh_2x3 H).
Defined.

Lemma data_as_another_type_witness :
  ~ reusable float_t CPUPlace (this fresh_2x3)
  /\ mutable_data false page_allocator float_t CPUPlace fresh_2x3
     = (Ok 4096, first_2x3)
  /\ data double_t (this first_2x3) = Throw DimsOutOfBound.
Proof.
  assert (Hr : ~ reusable float_t CPUPlace (this fresh_2x3))
    by (intros (h & Hh & _); discriminate Hh).
  assert (E : mutable_data false page_allocator float_t CPUPlace fresh_2x3
              = (Ok 4096, first_2x3)) by reflexivity.
  split; [exact Hr|]. split; [exact E|].
  destruct (data_as_another_type false page_allocator float_t double_t
              CPUPlace fresh_2x3 first_2x3 4096 Hr E) as (_ & Hbig);
    [reflexivity | reflexivity | apply Hbig; reflexivity].
Defined.

Lemma Slice_fits_holder_witness :
  Slice float_t 1 4 matrix_5x4 = Ok rows_1_to_4
  /\ numel matrix_5x4 * sizeof float_t + offset_ matrix_5x4 <= size_ host_buffer
  /\ numel rows_1_to_4 * sizeof float_t + offset_ rows_1_to_4
     <= size_ host_buffer
  /\ exists p, data float_t rows_1_to_4 = Ok p.
Proof.
  assert (HS : Slice float_t 1 4 matrix_5x4 = Ok rows_1_to_4) by reflexivity.
  assert (Hfit : numel matrix_5x4 * sizeof float_t + offset_ matrix_5x4
                 <= size_ host_buffer) by (vm_compute; discriminate).
  split; [exact HS|]. split; [exact Hfit|].
  destruct (Slice_fits_holder float_t 1 4 matrix_5x4 rows_1_to_4 host_buffer
              HS eq_refl) as (_ & _ & _ & H4 & H5).
  - repeat constructor; discriminate.
  - reflexivity.
  - vm_compute; discriminate.
  - exact Hfit.
  - reflexivity.
  - split; assumption.
Defined.

Lemma Slice_then_mutable_data_witness :
  Slice float_t 1 4 matrix_5x4 = Ok rows_1_to_4
  /\ numel matrix_5x4 > 0
  /\ mutable_data false page_allocator float_t CPUPlace
       {| this := rows_1_to_4; world := world held_5x4 |}
     = (Ok (ptr_ host_buffer + 24),
        {| this := rows_1_to_4; world := world held_5x4 |}).
Proof.
  assert (HS : Slice float_t 1 4 matrix_5x4 = Ok rows_1_to_4) by reflexivity.
  assert (Hn : numel matrix_5x4 > 0) by reflexivity.
  split; [exact HS|]. split; [exact Hn|].
  destruct (Slice_then_mutable_data false page_allocator float_t 1 4
              matrix_5x4 rows_1_to_4 host_buffer (world held_5x4) HS eq_refl)
    as (p & Hp & E).
  - repeat constructor; discriminate.
  - reflexivity.
  - vm_compute; discriminate.
  - vm_compute; discriminate.
  - reflexivity.
  - exact Hn.
  - assert (p = ptr_ host_buffer + 24)
      by (assert (Hq : data float_t rows_1_to_4 = Ok (ptr_ host_buffer + 24))
            by reflexivity; congruence).
    subst p. exact E.
Defined.


Lemma Slice_of_Slice_witness :
  - 2 ^ 63 <= product (dims_ matrix_5x4) < 2 ^ 63
  /\ Slice float_t 1 4 matrix_5x4 = Ok rows_1_to_4
  /\ Slice float_t 1 3 rows_1_to_4 = Ok rows_2_to_4
  /\ Slice float_t 2 4 matrix_5x4 = Ok rows_2_to_4.
Proof.
  assert (H1 : Slice float_t 1 4 matrix_5x4 = Ok rows_1_to_4) by reflexivity.
  assert (H2 : Slice float_t 1 3 rows_1_to_4 = Ok rows_2_to_4) by reflexivity.
  split; [split; [vm_compute; discriminate | reflexivity]|].
  split; [exact H1|]. split; [exact H2|].
  refine (Slice_of_Slice float_t 1 4 1 3 matrix_5x4 rows_1_to_4 rows_2_to_4
            _ H1 H2).
  split; [vm_compute; discriminate | reflexivity].
Defined.

Lemma ReshapeToMatrix_reads_the_same_witness :
  0 < 1 < Z.of_nat (length (dims cube_2x3x4))
  /\ exists res, ReshapeToMatrix float_t cube_2x3x4 1 empty_world
                 = (Ok res, empty_world)
                 /\ data float_t res = Ok (ptr_ host_buffer + 4).
Proof.
  assert (Hk : 0 < 1 < Z.of_nat (length (dims cube_2x3x4)))
    by (split; reflexivity).
  split; [exact Hk|].
  destruct (ReshapeToMatrix_reads_the_same float_t cube_2x3x4 1 empty_world Hk)
    as (Hok & _).
  apply Hok. reflexivity.
Defined.

Lemma CopyFrom_host_to_host_witness :
  holder_ matrix_5x4 = Some host_buffer
  /\ data float_t matrix_5x4 = Ok 4104
  /\ numel matrix_5x4 > 0
  /\ exists s' dst_ptr,
       CopyFrom false page_allocator float_t matrix_5x4 CPUPlace
         {| GetPlace := GPUPlace 3 |} fresh_2x3 = (Ok tt, s')
       /\ dims_ (this s') = [5; 4]
       /\ data float_t (this s') = Ok dst_ptr
       /\ copies (world s')
          = [ {| copy_dst_place := CPUPlace; copy_dst := dst_ptr;
                 copy_src_place := CPUPlace; copy_src := 4104;
                 copy_num := 80; copy_stream := None |} ].
Proof.
  assert (Hd : data float_t matrix_5x4 = Ok 4104) by reflexivity.
  assert (Hn : numel matrix_5x4 > 0) by reflexivity.
  split; [reflexivity|]. split; [exact Hd|]. split; [exact Hn|].
  exact (CopyFrom_host_to_host false page_allocator float_t matrix_5x4
           {| GetPlace := GPUPlace 3 |} fresh_2x3 host_buffer 4104
           eq_refl eq_refl Hd Hn).
Defined.

Lemma CopyFrom_one_device_endpoint_witness :
  holder_ on_device_0 = Some device_buffer
  /\ data float_t on_device_0 = Ok 4096
  /\ numel on_device_0 > 0
  /\ (exists s' dst_ptr,
        CopyFrom true page_allocator float_t on_device_0 CPUPlace
          {| GetPlace := GPUPlace 0 |} fresh_2x3 = (Ok tt, s')
        /\ data float_t (this s') = Ok dst_ptr
        /\ copies (world s')
           = [ {| copy_dst_place := CPUPlace; copy_dst := dst_ptr;
                  copy_src_place := GPUPlace 0; copy_src := 4096;
                  copy_num := 24;
                  copy_stream := Some {| GetPlace := GPUPlace 0 |} |} ])
  /\ exists e s',
       CopyFrom true page_allocator float_t on_device_0 CPUPlace
         {| GetPlace := GPUPlace 1 |} fresh_2x3 = (Throw e, s')
       /\ (e = CtxNotOnGPU \/ e = CtxPlaceMismatch)
       /\ copies (world s') = [].
Proof.
  assert (Hd : data float_t on_device_0 = Ok 4096) by reflexivity.
  assert (Hn : numel on_device_0 > 0) by reflexivity.
  split; [reflexivity|]. split; [exact Hd|]. split; [exact Hn|]. split.
  - destruct (CopyFrom_one_device_endpoint true page_allocator float_t
                on_device_0 CPUPlace {| GetPlace := GPUPlace 0 |} fresh_2x3
                device_buffer 4096 eq_refl eq_refl Hd Hn eq_refl) as (Hok & _).
    apply Hok. reflexivity.
  - destruct (CopyFrom_one_device_endpoint true page_allocator float_t
                on_device_0 CPUPlace {| GetPlace := GPUPlace 1 |} fresh_2x3
                device_buffer 4096 eq_refl eq_refl Hd Hn eq_refl) as (_ & Hko).
    apply Hko. discriminate.
Defined.

Lemma CopyFrom_copies_at_most_once_witness :
  CopyFrom true page_allocator float_t on_device_0 CPUPlace
    {| GetPlace := GPUPlace 1 |} fresh_2x3
  = (Throw CtxPlaceMismatch, first_2x3)
  /\ copies (world first_2x3) = copies (world fresh_2x3).
Proof.
  assert (E : CopyFrom true page_allocator float_t on_device_0 CPUPlace
                {| GetPlace := GPUPlace 1 |} fresh_2x3
              = (Throw CtxPlaceMismatch, first_2x3)) by reflexivity.
  split; [exact E|].
  destruct (CopyFrom_copies_at_most_once true page_allocator float_t
              on_device_0 CPUPlace {| GetPlace := GPUPlace 1 |} fresh_2x3
              first_2x3 (Throw CtxPlaceMismatch) E) as (Hthrow & _).
  exact (Hthrow CtxPlaceMismatch eq_refl).
Defined.

Lemma CopyFrom_without_cuda_copies_on_host_witness :
  let c := {| copy_dst_place := CPUPlace; copy_dst := 4096;
              copy_src_place := CPUPlace; copy_src := 4104;
              copy_num := 80; copy_stream := None |} in
  let s' := snd (CopyFrom false page_allocator float_t matrix_5x4 CPUPlace
                   {| GetPlace := CPUPlace |} fresh_2x3) in
  CopyFrom false page_allocator float_t matrix_5x4 CPUPlace
    {| GetPlace := CPUPlace |} fresh_2x3 = (Ok tt, s')
  /\ copies (world s') = c :: copies (world fresh_2x3)
  /\ copy_stream c = None.
Proof.
  intros c s'.
  assert (E : CopyFrom false page_allocator float_t matrix_5x4 CPUPlace
                {| GetPlace := CPUPlace |} fresh_2x3 = (Ok tt, s'))
    by reflexivity.
  assert (Hc : copies (world s') = c :: copies (world fresh_2x3))
    by reflexivity.
  split; [exact E|]. split; [exact Hc|].
  destruct (CopyFrom_without_cuda_copies_on_host page_allocator float_t
              matrix_5x4 CPUPlace {| GetPlace := CPUPlace |} fresh_2x3 s'
              (Ok tt) c E Hc) as (Hs & _).
  exact Hs.
Defined.

Lemma CopyFromVector_copies_the_vector_witness :
  numel (this fresh_2x3) > 0
  /\ supported false CPUPlace = true
  /\ exists s' dst_ptr,
       CopyFromVector false page_allocator float_t 8192 10
         {| GetPlace := CPUPlace |} fresh_2x3 = (Ok tt, s')
       /\ dims_ (this s') = [2; 3]
       /\ data float_t (this s') = Ok dst_ptr
       /\ copies (world s')
          = [ {| copy_dst_place := CPUPlace; copy_dst := dst_ptr;
                 copy_src_place := CPUPlace; copy_src := 8192;
                 copy_num := 40; copy_stream := None |} ].
Proof.
  assert (Hn : numel (this fresh_2x3) > 0) by reflexivity.
  split; [exact Hn|]. split; [reflexivity|].
  exact (CopyFromVector_copies_the_vector false page_allocator float_t 8192 10
           {| GetPlace := CPUPlace |} fresh_2x3 Hn eq_refl).
Defined.
